(** * go-load-balancer: backend registry and selection strategies

    A shallow embedding of the selection core of the load balancer
    (package [balancer]: round-robin, least-connections, IP-hash, health
    probe classification) and of the configuration check of [main.go],
    with the properties of the specification stated over it.

    Conventions.
    - A [*Backend] is a location [loc]; the mutable [Backend] structs live
      in a [Heap] shared by the balancer, the health checker and the proxy.
      Registry entries are non-nil pointers.
    - [int32] and [uint64] fields are [Z] values; every arithmetic step
      writes out Go's wrap-around ([wrap_int32], [wrap_uint64]).
    - A method returns its result together with the receiver and the heap
      after the call. A Go run-time panic is the result [Panic]. *)

From Stdlib Require Import ZArith Lia List Ascii String.
From Stdlib.Strings Require Import Byte.
From stdpp Require Import base decidable option list strings pretty vector gmap.

Local Open Scope Z_scope.

(** ** Machine integers *)

Module Int.

Definition int32_min : Z := - 2 ^ 31.
Definition int32_max : Z := 2 ^ 31 - 1.
Definition uint64_modulus : Z := 2 ^ 64.
Definition uint32_modulus : Z := 2 ^ 32.

Definition int32_range (z : Z) : Prop := int32_min <= z <= int32_max.
Definition uint64_range (z : Z) : Prop := 0 <= z < uint64_modulus.

(** Two's complement reduction of a mathematical integer to [int32]. *)
Definition wrap_int32 (z : Z) : Z := (z + 2 ^ 31) mod 2 ^ 32 - 2 ^ 31.

(** Conversions [uint32(x)] and [uint64(x)]. *)
Definition wrap_uint32 (z : Z) : Z := z mod uint32_modulus.
Definition wrap_uint64 (z : Z) : Z := z mod uint64_modulus.

End Int.

Import Int.

(** ** Results of calls that may panic *)

Inductive result (A : Type) : Type :=
| Ret (a : A)
| Panic.
Arguments Ret {A} a.
Arguments Panic {A}.

(** ** interfaces.go: the Backend record and the shared heap *)

Record Backend : Type := mkBackend {
  URL : string;            (* backend.URL.String() *)
  Alive : bool;
  Connections : Z;         (* int32 *)
  SuccessCount : Z;        (* int32 *)
  ErrorCount : Z           (* int32 *)
}.

Definition loc : Type := nat.
Definition Heap : Type := loc -> Backend.

Definition store (h : Heap) (p : loc) (b : Backend) : Heap :=
  fun q => if decide (q = p) then b else h q.

Definition set_Alive (alive : bool) (b : Backend) : Backend :=
  mkBackend (URL b) alive (Connections b) (SuccessCount b) (ErrorCount b).
Definition set_Connections (n : Z) (b : Backend) : Backend :=
  mkBackend (URL b) (Alive b) n (SuccessCount b) (ErrorCount b).
Definition set_SuccessCount (n : Z) (b : Backend) : Backend :=
  mkBackend (URL b) (Alive b) (Connections b) n (ErrorCount b).
Definition set_ErrorCount (n : Z) (b : Backend) : Backend :=
  mkBackend (URL b) (Alive b) (Connections b) (SuccessCount b) n.

(** [atomic.AddInt32(&p.Field, delta)] for the three counters. *)
Definition AddInt32_Connections (h : Heap) (p : loc) (delta : Z) : Heap :=
  store h p (set_Connections (wrap_int32 (Connections (h p) + delta)) (h p)).
Definition AddInt32_SuccessCount (h : Heap) (p : loc) (delta : Z) : Heap :=
  store h p (set_SuccessCount (wrap_int32 (SuccessCount (h p) + delta)) (h p)).
Definition AddInt32_ErrorCount (h : Heap) (p : loc) (delta : Z) : Heap :=
  store h p (set_ErrorCount (wrap_int32 (ErrorCount (h p) + delta)) (h p)).

(** Every counter of every backend holds an [int32]. *)
Definition heap_ok (h : Heap) : Prop :=
  forall p, int32_range (Connections (h p)) /\
            int32_range (SuccessCount (h p)) /\
            int32_range (ErrorCount (h p)).

(** The part of an [*http.Request] that selection reads. *)
Record Request : Type := mkRequest {
  XForwardedFor : string;  (* request.Header.Get("X-Forwarded-For") *)
  XRealIP : string;        (* request.Header.Get("X-Real-IP") *)
  RemoteAddr : string
}.

(** The [LoadBalancer] interface. *)
Class LoadBalancer (B : Type) : Type := {
  SelectBackend : B -> Heap -> Request -> result (option loc) * B * Heap;
  AddBackend : B -> loc -> B;
  RemoveBackend : B -> Heap -> loc -> B;
  GetBackends : B -> list loc;
  UpdateBackendStatus : B -> Heap -> loc -> bool -> Heap
}.

(** ** Registry operations shared by the three strategies *)

(** The [aliveBackends] slice built by the filtering loop. *)
Definition aliveBackends (h : Heap) (backends : list loc) : list loc :=
  List.filter (fun backend => Alive (h backend)) backends.

(** [append(bs[:i], bs[i+1:]...)] at the first entry with the URL of
    [backend]. *)
Fixpoint remove_first (h : Heap) (backends : list loc) (backend : loc) : list loc :=
  match backends with
  | [] => []
  | b :: rest =>
      if decide (URL (h b) = URL (h backend)) then rest
      else b :: remove_first h rest backend
  end.

(** Set the liveness of the first entry with the URL of [backend]. *)
Fixpoint update_first (h : Heap) (backends : list loc) (backend : loc) (alive : bool) : Heap :=
  match backends with
  | [] => h
  | b :: rest =>
      if decide (URL (h b) = URL (h backend)) then store h b (set_Alive alive (h b))
      else update_first h rest backend alive
  end.

(** ** Round-robin *)

Record RoundRobinBalancer : Type := mkRoundRobin {
  rr_backends : list loc;
  rr_current : Z           (* uint64 *)
}.

Definition NewRoundRobinBalancer : RoundRobinBalancer := mkRoundRobin [] 0.

Definition RoundRobin_SelectBackend (rb : RoundRobinBalancer) (h : Heap) (request : Request)
  : result (option loc) * RoundRobinBalancer * Heap :=
  if decide (length (rr_backends rb) = 0%nat) then (Ret None, rb, h)
  else
    let alive := aliveBackends h (rr_backends rb) in
    if decide (length alive = 0%nat) then (Ret None, rb, h)
    else
      (* atomic.AddUint64 returns the new value *)
      let current := wrap_uint64 (rr_current rb + 1) in
      let rb' := mkRoundRobin (rr_backends rb) current in
      let index := current mod Z.of_nat (length alive) in
      match alive !! Z.to_nat index with
      | Some backend => (Ret (Some backend), rb', h)
      | None => (Panic, rb', h)
      end.

#[export] Instance RoundRobin_LoadBalancer : LoadBalancer RoundRobinBalancer := {
  SelectBackend := RoundRobin_SelectBackend;
  AddBackend rb backend := mkRoundRobin (rr_backends rb ++ [backend]) (rr_current rb);
  RemoveBackend rb h backend :=
    mkRoundRobin (remove_first h (rr_backends rb) backend) (rr_current rb);
  GetBackends rb := rr_backends rb;
  UpdateBackendStatus rb h backend alive := update_first h (rr_backends rb) backend alive
}.

(** ** Least-connections *)

Record LeastConnectionsBalancer : Type := mkLeastConnections {
  lc_backends : list loc
}.

Definition NewLeastConnectionsBalancer : LeastConnectionsBalancer := mkLeastConnections [].

(** One iteration of the scanning loop on the pair
    [(selected, minConnections)]. *)
Definition LeastConnections_step (h : Heap) (acc : option loc * Z) (backend : loc)
  : option loc * Z :=
  let '(selected, minConnections) := acc in
  if negb (Alive (h backend)) then (selected, minConnections)
  else
    let connections := Connections (h backend) in
    if (minConnections =? -1) || (connections <? minConnections)
    then (Some backend, connections)
    else (selected, minConnections).

Definition LeastConnections_scan (h : Heap) (backends : list loc) : option loc * Z :=
  fold_left (LeastConnections_step h) backends (None, -1).

Definition LeastConnections_SelectBackend
    (lcb : LeastConnectionsBalancer) (h : Heap) (request : Request)
  : result (option loc) * LeastConnectionsBalancer * Heap :=
  if decide (length (lc_backends lcb) = 0%nat) then (Ret None, lcb, h)
  else
    let selected := fst (LeastConnections_scan h (lc_backends lcb)) in
    match selected with
    | Some backend => (Ret selected, lcb, AddInt32_Connections h backend 1)
    | None => (Ret selected, lcb, h)
    end.

Definition DecrementConnections (h : Heap) (backend : loc) : Heap :=
  AddInt32_Connections h backend (-1).

#[export] Instance LeastConnections_LoadBalancer : LoadBalancer LeastConnectionsBalancer := {
  SelectBackend := LeastConnections_SelectBackend;
  AddBackend lcb backend := mkLeastConnections (lc_backends lcb ++ [backend]);
  RemoveBackend lcb h backend := mkLeastConnections (remove_first h (lc_backends lcb) backend);
  GetBackends lcb := lc_backends lcb;
  UpdateBackendStatus lcb h backend alive := update_first h (lc_backends lcb) backend alive
}.

(** ** Library functions used by the IP-hash fingerprint *)

(** [fmt.Sprintf("%x", bs)] on a byte slice: two lower-case hexadecimal
    digits per byte. *)
Definition hex_digit (n : N) : ascii :=
  nth (N.to_nat n) (list_ascii_of_string "0123456789abcdef") "0"%char.

Definition Sprintf_x (bs : list byte) : string :=
  fold_right
    (fun b s => String (hex_digit (Byte.to_N b / 16))
                  (String (hex_digit (Byte.to_N b mod 16)) s))
    EmptyString bs.

Inductive NumError : Type := ErrSyntax | ErrRange.

(** The digit of a character in [strconv.ParseUint]; [lower(c)] is
    [c | ('x' - 'X')]. *)
Definition digit_value (c : ascii) : option Z :=
  let n := Z.of_N (N_of_ascii c) in
  let lower := Z.lor n 32 in
  if (48 <=? n) && (n <=? 57) then Some (n - 48)
  else if (97 <=? lower) && (lower <=? 122) then Some (lower - 97 + 10)
  else None.

Definition maxUint64 : Z := 2 ^ 64 - 1.

(** The digit loop of [strconv.ParseUint(s, base, 64)], [2 <= base <= 36],
    from the accumulator [n]. *)
Fixpoint ParseUint_loop (base : Z) (s : string) (n : Z) : Z * option NumError :=
  match s with
  | EmptyString => (n, None)
  | String c rest =>
      match digit_value c with
      | None => (0, Some ErrSyntax)
      | Some d =>
          if base <=? d then (0, Some ErrSyntax)
          else if maxUint64 / base + 1 <=? n then (maxUint64, Some ErrRange)
          else
            let n1 := n * base + d in
            if maxUint64 <? n1 then (maxUint64, Some ErrRange)
            else ParseUint_loop base rest n1
      end
  end.

Definition ParseUint (s : string) (base : Z) : Z * option NumError :=
  match s with
  | EmptyString => (0, Some ErrSyntax)
  | _ => ParseUint_loop base s 0
  end.

(** [strconv.ParseInt(s, base, 64)], [2 <= base <= 36]. *)
Definition ParseInt (s : string) (base : Z) : Z * option NumError :=
  match s with
  | EmptyString => (0, Some ErrSyntax)
  | String c rest =>
      let neg := bool_decide (c = "-"%char) in
      let s' := if bool_decide (c = "+"%char) || neg then rest else s in
      let '(un, err) := ParseUint s' base in
      match err with
      | Some ErrSyntax => (0, err)
      | _ =>
          let cutoff := 2 ^ 63 in
          if negb neg && (cutoff <=? un) then (cutoff - 1, Some ErrRange)
          else if neg && (cutoff <? un) then (- cutoff, Some ErrRange)
          else (if neg then - un else un, None)
      end
  end.

(** The first element of [strings.Split(s, ",")]. *)
Fixpoint Split_head (s : string) : string :=
  match s with
  | EmptyString => EmptyString
  | String c rest => if bool_decide (c = ","%char) then EmptyString else String c (Split_head rest)
  end.

(** Big-endian value of a byte sequence. *)
Definition be_value (bs : list byte) : Z :=
  fold_left (fun acc b => acc * 256 + Z.of_N (Byte.to_N b)) bs 0.

(** ** IP-hash *)

Record IPHashBalancer : Type := mkIPHash {
  ih_backends : list loc
}.

Definition NewIPHashBalancer : IPHashBalancer := mkIPHash [].

Section IPHash.

(** Go's [crypto/md5.Sum] ([16]byte result), [strings.TrimSpace] and
    [net.SplitHostPort] ([None] for a non-nil error). *)
Variable md5_Sum : list byte -> vec byte 16.
Variable strings_TrimSpace : string -> string.
Variable net_SplitHostPort : string -> option (string * string).

Definition getClientIP (request : Request) : string :=
  let forwarded := XForwardedFor request in
  if bool_decide (forwarded <> EmptyString)
  then strings_TrimSpace (Split_head forwarded)
  else
    let realIP := XRealIP request in
    if bool_decide (realIP <> EmptyString) then realIP
    else
      match net_SplitHostPort (RemoteAddr request) with
      | None => RemoteAddr request
      | Some (host, _) => host
      end.

Definition hashIP (ip : string) : Z :=
  let hash := md5_Sum (list_byte_of_string ip) in
  let hashStr := Sprintf_x (take 4 (vec_to_list hash)) in
  let '(hashInt, err) := ParseInt hashStr 16 in
  match err with
  | Some _ => 0
  | None => wrap_uint32 hashInt
  end.

Definition IPHash_SelectBackend (ihb : IPHashBalancer) (h : Heap) (request : Request)
  : result (option loc) * IPHashBalancer * Heap :=
  if decide (length (ih_backends ihb) = 0%nat) then (Ret None, ihb, h)
  else
    let alive := aliveBackends h (ih_backends ihb) in
    if decide (length alive = 0%nat) then (Ret None, ihb, h)
    else
      let clientIP := getClientIP request in
      let hash := hashIP clientIP in
      let n := wrap_uint32 (Z.of_nat (length alive)) in
      (* integer division by zero panics *)
      if decide (n = 0) then (Panic, ihb, h)
      else
        let index := hash mod n in
        match alive !! Z.to_nat index with
        | Some backend => (Ret (Some backend), ihb, h)
        | None => (Panic, ihb, h)
        end.

Definition IPHash_LoadBalancer : LoadBalancer IPHashBalancer := {|
  SelectBackend := IPHash_SelectBackend;
  AddBackend ihb backend := mkIPHash (ih_backends ihb ++ [backend]);
  RemoveBackend ihb h backend := mkIPHash (remove_first h (ih_backends ihb) backend);
  GetBackends ihb := ih_backends ihb;
  UpdateBackendStatus ihb h backend alive := update_first h (ih_backends ihb) backend alive
|}.

End IPHash.

(** ** Health checker *)

(** What the environment answers to one probe: the request could not be
    built ([http.NewRequestWithContext] failed), the round trip failed
    ([client.Do] returned an error: refused connection, timeout, ...), or
    a response with a status code arrived. *)
Inductive ProbeOutcome : Type :=
| NewRequestError
| DoError
| Response (StatusCode : Z).

Definition CheckHealth (h : Heap) (backend : loc) (probe : ProbeOutcome) : bool * Heap :=
  match probe with
  | NewRequestError => (false, h)
  | DoError => (false, AddInt32_ErrorCount h backend 1)
  | Response StatusCode =>
      if (200 <=? StatusCode) && (StatusCode <? 300)
      then (true, AddInt32_SuccessCount h backend 1)
      else (false, AddInt32_ErrorCount h backend 1)
  end.

(** The body of one probing goroutine of [performHealthChecks]; the second
    component tells whether a status change is logged. *)
Definition probe_backend {B} `{LoadBalancer B} (balancer : B) (h : Heap) (b : loc)
    (probe : ProbeOutcome) : Heap * bool :=
  let '(alive, h1) := CheckHealth h b probe in
  let previousState := Alive (h1 b) in
  let h2 := UpdateBackendStatus balancer h1 b alive in
  (h2, negb (eqb previousState alive)).

(** ** main.go: configuration *)

Record Config : Type := mkConfig {
  Port : string;
  Backends : list string;
  Algorithm : string;
  HealthCheckInterval : Z;   (* time.Duration, int64 nanoseconds *)
  HealthCheckTimeout : Z
}.

Definition validAlgorithms : gmap string bool :=
  <["round-robin" := true]> (<["least-connections" := true]> (<["ip-hash" := true]> ∅)).

(** [validateConfig]: [None] is the nil error. *)
Definition validateConfig (config : Config) : option string :=
  if decide (length (Backends config) = 0%nat)
  then Some "at least one backend must be specified"%string
  else if negb (default false (validAlgorithms !! Algorithm config))
  then Some ("invalid algorithm: " +:+ Algorithm config +:+
             ". Valid options: round-robin, least-connections, ip-hash")%string
  else if HealthCheckInterval config <=? 0
  then Some "health check interval must be positive"%string
  else if HealthCheckTimeout config <=? 0
  then Some "health check timeout must be positive"%string
  else None.

(** ** Runs of consecutive selections and aggregate counts *)

(** One [SelectBackend] call per request of [requests], in order, with no
    other operation in between. *)
Fixpoint run {B} `{LoadBalancer B} (requests : list Request) (balancer : B) (h : Heap)
  : list (result (option loc)) * B * Heap :=
  match requests with
  | [] => ([], balancer, h)
  | request :: rest =>
      let '(r, balancer1, h1) := SelectBackend balancer h request in
      let '(rs, balancer2, h2) := run rest balancer1 h1 in
      (r :: rs, balancer2, h2)
  end.

(** Sum of the connection counts of the registered backends, each backend
    counted once. *)
Definition totalConnections (h : Heap) (backends : list loc) : Z :=
  fold_right (fun p acc => Connections (h p) + acc) 0 (remove_dups backends).

(** ** Instances of the library functions

    [crypto/md5.Sum] after RFC 1321, and versions of [strings.TrimSpace]
    and [net.SplitHostPort] for ASCII input of the form [host:port]; they
    instantiate the parameters of the IP-hash strategy in the examples. *)

Module MD5.

Definition add32 (a b : Z) : Z := (a + b) mod 2 ^ 32.
Definition not32 (a : Z) : Z := Z.lxor a (2 ^ 32 - 1).
Definition rotl32 (x s : Z) : Z :=
  Z.lor (Z.shiftl x s mod 2 ^ 32) (Z.shiftr x (32 - s)).

Definition s_table : list Z :=
  [7; 12; 17; 22; 7; 12; 17; 22; 7; 12; 17; 22; 7; 12; 17; 22;
   5; 9; 14; 20; 5; 9; 14; 20; 5; 9; 14; 20; 5; 9; 14; 20;
   4; 11; 16; 23; 4; 11; 16; 23; 4; 11; 16; 23; 4; 11; 16; 23;
   6; 10; 15; 21; 6; 10; 15; 21; 6; 10; 15; 21; 6; 10; 15; 21].

(** [K_table[i] = floor(2^32 * |sin (i + 1)|)]. *)
Definition K_table : list Z :=
  [3614090360; 3905402710; 606105819; 3250441966;
   4118548399; 1200080426; 2821735955; 4249261313;
   1770035416; 2336552879; 4294925233; 2304563134;
   1804603682; 4254626195; 2792965006; 1236535329;
   4129170786; 3225465664; 643717713; 3921069994;
   3593408605; 38016083; 3634488961; 3889429448;
   568446438; 3275163606; 4107603335; 1163531501;
   2850285829; 4243563512; 1735328473; 2368359562;
   4294588738; 2272392833; 1839030562; 4259657740;
   2763975236; 1272893353; 4139469664; 3200236656;
   681279174; 3936430074; 3572445317; 76029189;
   3654602809; 3873151461; 530742520; 3299628645;
   4096336452; 1126891415; 2878612391; 4237533241;
   1700485571; 2399980690; 4293915773; 2240044497;
   1873313359; 4264355552; 2734768916; 1309151649;
   4149444226; 3174756917; 718787259; 3951481745].

(** Little-endian value of a byte sequence, and the [n] little-endian
    bytes of a value. *)
Definition le_value (bs : list Z) : Z := fold_right (fun b acc => b + 256 * acc) 0 bs.

Fixpoint le_bytes (n : nat) (z : Z) : list Z :=
  match n with
  | O => []
  | S n' => z mod 256 :: le_bytes n' (z / 256)
  end.

Fixpoint words (n : nat) (bs : list Z) : list Z :=
  match n with
  | O => []
  | S n' => le_value (firstn 4 bs) :: words n' (skipn 4 bs)
  end.

Definition step (M : list Z) (st : Z * Z * Z * Z) (i : nat) : Z * Z * Z * Z :=
  let '(a, b, c, d) := st in
  let iz := Z.of_nat i in
  let '(f, g) :=
    if iz <? 16 then (Z.lor (Z.land b c) (Z.land (not32 b) d), iz)
    else if iz <? 32 then (Z.lor (Z.land d b) (Z.land (not32 d) c), (5 * iz + 1) mod 16)
    else if iz <? 48 then (Z.lxor (Z.lxor b c) d, (3 * iz + 5) mod 16)
    else (Z.lxor c (Z.lor b (not32 d)), (7 * iz) mod 16) in
  let f' := add32 (add32 (add32 f a) (nth i K_table 0)) (nth (Z.to_nat g) M 0) in
  (d, add32 b (rotl32 f' (nth i s_table 0)), b, c).

Definition block (st : Z * Z * Z * Z) (bs : list Z) : Z * Z * Z * Z :=
  let '(a0, b0, c0, d0) := st in
  let '(a, b, c, d) := fold_left (step (words 16 bs)) (seq 0 64) st in
  (add32 a0 a, add32 b0 b, add32 c0 c, add32 d0 d).

Fixpoint blocks (n : nat) (bs : list Z) (st : Z * Z * Z * Z) : Z * Z * Z * Z :=
  match n with
  | O => st
  | S n' => blocks n' (skipn 64 bs) (block st (firstn 64 bs))
  end.

Definition pad (msg : list Z) : list Z :=
  let len := Z.of_nat (length msg) in
  msg ++ [128] ++ repeat 0 (Z.to_nat ((55 - len) mod 64)) ++ le_bytes 8 (8 * len).

Definition digest (msg : list byte) : list byte :=
  let padded := pad (map (fun b => Z.of_N (Byte.to_N b)) msg) in
  let '(a, b, c, d) :=
    blocks (Nat.div (length padded) 64) padded
      (1732584193, 4023233417, 2562383102, 271733878) in
  map (fun z => default x00 (Byte.of_N (Z.to_N z)))
    (le_bytes 4 a ++ le_bytes 4 b ++ le_bytes 4 c ++ le_bytes 4 d).

Definition Sum (msg : list byte) : vec byte 16 :=
  fun_to_vec (fun i : fin 16 => nth (fin_to_nat i) (digest msg) x00).

End MD5.

Definition is_space (c : ascii) : bool :=
  let n := N_of_ascii c in
  ((9 <=? n) && (n <=? 13) || (n =? 32))%N.

Fixpoint trim_left (s : string) : string :=
  match s with
  | String c rest => if is_space c then trim_left rest else s
  | EmptyString => EmptyString
  end.

Fixpoint trim_right (s : string) : string :=
  match s with
  | String c rest =>
      match trim_right rest with
      | EmptyString => if is_space c then EmptyString else String c EmptyString
      | rest' => String c rest'
      end
  | EmptyString => EmptyString
  end.

Definition TrimSpace_ascii (s : string) : string := trim_right (trim_left s).

(** Split [host:port] at its last colon; no colon is the error "missing
    port in address". *)
Fixpoint SplitHostPort_plain (s : string) : option (string * string) :=
  match s with
  | EmptyString => None
  | String c rest =>
      match SplitHostPort_plain rest with
      | Some (host, port) => Some (String c host, port)
      | None => if bool_decide (c = ":"%char) then Some (EmptyString, rest) else None
      end
  end.

(** The IP-hash strategy with these instances. *)
Definition ipHash_select : IPHashBalancer -> Heap -> Request ->
    result (option loc) * IPHashBalancer * Heap :=
  IPHash_SelectBackend MD5.Sum TrimSpace_ascii SplitHostPort_plain.

Definition ih3 : IPHashBalancer := mkIPHash [0; 1; 2]%nat.

(** ** Sample states *)

Definition anyRequest : Request := mkRequest "" "" "10.0.0.7:51000".

(** Backends [0], [1], [2] at three addresses, alive as [alive] says, all
    counters zero. *)
Definition heap3 (alive : loc -> bool) : Heap :=
  fun p => mkBackend ("http://localhost:300" +:+ pretty p) (alive p) 0 0 0.

(** The heap that holds the given records at [0], [1], ...; every other
    location holds a dead backend. *)
Definition heapOf (records : list Backend) : Heap :=
  fun p => default (mkBackend "" false 0 0 0) (records !! p).

(** Three alive backends with 3, 1 and 1 requests in flight. *)
Definition heapBusy : Heap :=
  heapOf [mkBackend "http://localhost:3001" true 3 7 0;
          mkBackend "http://localhost:3002" true 1 4 1;
          mkBackend "http://localhost:3003" true 1 5 0].

Definition lc3 : LeastConnectionsBalancer :=
  AddBackend (AddBackend (AddBackend NewLeastConnectionsBalancer 0%nat) 1%nat) 2%nat.

(** Two requests of one client: through a proxy chain, and directly. *)
Definition forwardedRequest : Request :=
  mkRequest "10.0.0.7 , 172.16.0.1" "" "172.16.0.1:40022".

(** The registry of [rr3] two calls before the cursor reaches [2^64]. *)
Definition rrLate : RoundRobinBalancer :=
  mkRoundRobin [0; 1; 2]%nat (uint64_modulus - 2).

(** A full counter: one alive backend whose connection count is the
    largest [int32]. *)
Definition heapFull : Heap :=
  heapOf [mkBackend "http://localhost:3001" true int32_max 0 0].

Definition rr3 : RoundRobinBalancer :=
  AddBackend (AddBackend (AddBackend NewRoundRobinBalancer 0%nat) 1%nat) 2%nat.

(** ** Specification predicates *)

(** A selection result never is a backend that is not alive in the heap
    the liveness check reads, and it is "none" exactly when no registered
    backend is alive. *)
Definition select_sound (backends : list loc) (h : Heap) (r : result (option loc)) : Prop :=
  (forall p, r = Ret (Some p) -> p ∈ backends /\ Alive (h p) = true) /\
  (r = Ret None <-> length (aliveBackends h backends) = 0%nat).


(** [p] is the least-loaded alive entry of the registry, and the first
    such entry in insertion order: it sits at a position [i], no alive
    entry has a smaller count, and every alive entry before [i] has a
    strictly larger one. *)
Definition first_least_loaded (h : Heap) (backends : list loc) (p : loc) : Prop :=
  exists i : nat,
    backends !! i = Some p /\ Alive (h p) = true /\
    forall (j : nat) (q : loc),
      backends !! j = Some q -> Alive (h q) = true ->
      Connections (h p) <= Connections (h q) /\
      ((j < i)%nat -> Connections (h p) < Connections (h q)).

(** What [n] consecutive round-robin calls from cursor [c] return when the
    cursor does not overflow: call [i] indexes the alive slice at
    [(c + 1 + i) mod k]. *)
Definition roundRobin_expected (alive : list loc) (c : Z) (n : nat)
  : list (result (option loc)) :=
  (fun i : nat => Ret (alive !! Z.to_nat ((c + 1 + Z.of_nat i) mod Z.of_nat (length alive))))
    <$> seq 0 n.

(** The algorithm names [createLoadBalancer] knows. *)
Definition valid_algorithm_name (name : string) : Prop :=
  name = "round-robin"%string \/ name = "least-connections"%string \/
  name = "ip-hash"%string.

(** The start of [main]: a validation error is fatal, the process exits
    before any balancer is built. *)
Inductive Startup : Type :=
| Fatal (message : string)
| Proceed.

Definition main_validate (config : Config) : Startup :=
  match validateConfig config with
  | Some err => Fatal ("Configuration error: " +:+ err)
  | None => Proceed
  end.

(** ** Registry entries by URL *)

(** No entry of the registry has the URL [u]. *)
Definition no_URL (h : Heap) (backends : list loc) (u : string) : Prop :=
  Forall (fun q => URL (h q) <> u) backends.

(** The registry is [pre ++ p :: post] and [p] is its first entry with
    the URL [u]. *)
Definition first_with_URL (h : Heap) (backends : list loc) (u : string)
    (pre : list loc) (p : loc) (post : list loc) : Prop :=
  backends = pre ++ p :: post /\ URL (h p) = u /\ no_URL h pre u.

(** [after] is [before] without its first entry with the URL of
    [backend], or [before] itself when there is no such entry. *)
Definition removes_first_match (h : Heap) (before : list loc) (backend : loc)
    (after : list loc) : Prop :=
  (no_URL h before (URL (h backend)) /\ after = before) \/
  (exists pre p post,
     first_with_URL h before (URL (h backend)) pre p post /\ after = pre ++ post).

(** [h'] is [h] with the liveness of the first entry with the URL of
    [backend] set to [alive] and nothing else changed, or [h] itself when
    there is no such entry. *)
Definition updates_first_match (h : Heap) (backends : list loc) (backend : loc)
    (alive : bool) (h' : Heap) : Prop :=
  (no_URL h backends (URL (h backend)) /\ forall q, h' q = h q) \/
  (exists pre p post,
     first_with_URL h backends (URL (h backend)) pre p post /\
     h' p = set_Alive alive (h p) /\ forall q, q <> p -> h' q = h q).

(** ** Health checking rounds *)

(** The classification [CheckHealth] gives an outcome. *)
Definition probe_healthy (probe : ProbeOutcome) : bool :=
  match probe with
  | Response StatusCode => bool_decide (200 <= StatusCode < 300)
  | _ => false
  end.

(** One round of [performHealthChecks] in which the probing goroutines
    run one after the other, in the order [order] (a rearrangement of
    [GetBackends]); [outcome b] is what the probe of [b] meets. *)
Fixpoint probe_round {B} `{LoadBalancer B} (balancer : B) (h : Heap) (order : list loc)
    (outcome : loc -> ProbeOutcome) : Heap :=
  match order with
  | [] => h
  | b :: rest => probe_round balancer (probe_backend balancer h b (outcome b)).1 rest outcome
  end.

(** The registered URLs are pairwise different. *)
Definition distinct_URLs (h : Heap) (backends : list loc) : Prop :=
  NoDup ((fun p => URL (h p)) <$> backends).

(** [UpdateBackendStatus] of the balancer is the shared loop over its
    registry (it is, for each of the three strategies). *)
Definition updates_by_URL {B} `{LoadBalancer B} (balancer : B) : Prop :=
  forall h backend alive,
    UpdateBackendStatus balancer h backend alive =
    update_first h (GetBackends balancer) backend alive.

(** ** Load of the alive backends *)

(** Every alive registered backend has a count in [[0, bound]]. *)
Definition alive_counts_within (h : Heap) (backends : list loc) (bound : Z) : Prop :=
  forall q, q ∈ backends -> Alive (h q) = true -> 0 <= Connections (h q) <= bound.

(** The counts of any two alive registered backends differ by at most
    [d]. *)
Definition spread_at_most (h : Heap) (backends : list loc) (d : Z) : Prop :=
  forall q1 q2, q1 ∈ backends -> q2 ∈ backends ->
    Alive (h q1) = true -> Alive (h q2) = true ->
    Connections (h q1) - Connections (h q2) <= d.

(** ** The strategy behind the interface *)

(** A [LoadBalancer] interface value: one of the three strategies. *)
Inductive Balancer : Type :=
| OfRoundRobin (rb : RoundRobinBalancer)
| OfLeastConnections (lcb : LeastConnectionsBalancer)
| OfIPHash (ihb : IPHashBalancer).

(** [createLoadBalancer]: the balancer, or the error message. *)
Definition createLoadBalancer (algorithm : string) : Balancer + string :=
  if decide (algorithm = "round-robin"%string) then inl (OfRoundRobin NewRoundRobinBalancer)
  else if decide (algorithm = "least-connections"%string)
  then inl (OfLeastConnections NewLeastConnectionsBalancer)
  else if decide (algorithm = "ip-hash"%string) then inl (OfIPHash NewIPHashBalancer)
  else inr ("unsupported load balancing algorithm: " +:+ algorithm)%string.

(** ** reverseproxy.go: the dispatcher *)

(** The operator's view of one backend and of the pool. *)
Record BackendStatus : Type := mkBackendStatus {
  bs_URL : string;
  bs_Alive : bool;
  bs_Connections : Z;
  bs_SuccessCount : Z;
  bs_ErrorCount : Z
}.

Record HealthResponse : Type := mkHealthResponse {
  hr_Status : string;
  hr_HealthyBackends : Z;
  hr_TotalBackends : Z;
  hr_Backends : list BackendStatus
}.

(** One iteration of the loop of [handleHealthCheck] on
    [(healthyCount, backendStatuses)]. *)
Definition handleHealthCheck_step (h : Heap) (acc : Z * list BackendStatus) (backend : loc)
  : Z * list BackendStatus :=
  let '(healthyCount, backendStatuses) := acc in
  (if Alive (h backend) then healthyCount + 1 else healthyCount,
   backendStatuses ++
     [mkBackendStatus (URL (h backend)) (Alive (h backend)) (Connections (h backend))
        (SuccessCount (h backend)) (ErrorCount (h backend))]).

(** What happens to a request once a backend is chosen: the outgoing
    request cannot be built, the round trip fails, a response arrives but
    copying its body fails, or the response is relayed whole. *)
Inductive ProxyOutcome : Type :=
| ProxyRequestError
| BackendError
| CopyError (StatusCode : Z)
| Relayed (StatusCode : Z).

(** The release of the connection slot: [DecrementConnections] when the
    type assertion of the balancer to the least-connections strategy
    succeeds, nothing otherwise. *)
Definition release (lb : Balancer) (h : Heap) (backend : loc) : Heap :=
  match lb with
  | OfLeastConnections _ => DecrementConnections h backend
  | _ => h
  end.

(** The registry methods through the interface value. *)
Definition Balancer_AddBackend (lb : Balancer) (backend : loc) : Balancer :=
  match lb with
  | OfRoundRobin rb => OfRoundRobin (AddBackend rb backend)
  | OfLeastConnections lcb => OfLeastConnections (AddBackend lcb backend)
  | OfIPHash ihb => OfIPHash (mkIPHash (ih_backends ihb ++ [backend]))
  end.

Definition Balancer_RemoveBackend (lb : Balancer) (h : Heap) (backend : loc) : Balancer :=
  match lb with
  | OfRoundRobin rb => OfRoundRobin (RemoveBackend rb h backend)
  | OfLeastConnections lcb => OfLeastConnections (RemoveBackend lcb h backend)
  | OfIPHash ihb => OfIPHash (mkIPHash (remove_first h (ih_backends ihb) backend))
  end.

Definition Balancer_GetBackends (lb : Balancer) : list loc :=
  match lb with
  | OfRoundRobin rb => GetBackends rb
  | OfLeastConnections lcb => GetBackends lcb
  | OfIPHash ihb => ih_backends ihb
  end.

Definition Balancer_UpdateBackendStatus (lb : Balancer) (h : Heap) (backend : loc)
    (alive : bool) : Heap :=
  match lb with
  | OfRoundRobin rb => UpdateBackendStatus rb h backend alive
  | OfLeastConnections lcb => UpdateBackendStatus lcb h backend alive
  | OfIPHash ihb => update_first h (ih_backends ihb) backend alive
  end.

Section Dispatcher.

Variable md5_Sum : list byte -> vec byte 16.
Variable strings_TrimSpace : string -> string.
Variable net_SplitHostPort : string -> option (string * string).

(** [SelectBackend] through the interface value. *)
Definition Balancer_SelectBackend (lb : Balancer) (h : Heap) (request : Request)
  : result (option loc) * Balancer * Heap :=
  match lb with
  | OfRoundRobin rb =>
      let '(r, rb', h') := SelectBackend rb h request in (r, OfRoundRobin rb', h')
  | OfLeastConnections lcb =>
      let '(r, lcb', h') := SelectBackend lcb h request in (r, OfLeastConnections lcb', h')
  | OfIPHash ihb =>
      let '(r, ihb', h') :=
        IPHash_SelectBackend md5_Sum strings_TrimSpace net_SplitHostPort ihb h request in
      (r, OfIPHash ihb', h')
  end.

Definition Balancer_LoadBalancer : LoadBalancer Balancer := {|
  SelectBackend := Balancer_SelectBackend;
  AddBackend := Balancer_AddBackend;
  RemoveBackend := Balancer_RemoveBackend;
  GetBackends := Balancer_GetBackends;
  UpdateBackendStatus := Balancer_UpdateBackendStatus
|}.

(** [handleHealthCheck]: the HTTP status and the report. *)
Definition handleHealthCheck (lb : Balancer) (h : Heap) : Z * HealthResponse :=
  let backends := @GetBackends _ Balancer_LoadBalancer lb in
  let '(healthyCount, backendStatuses) :=
    fold_left (handleHealthCheck_step h) backends (0, []) in
  let unhealthy := healthyCount =? 0 in
  (if unhealthy then 503 else 200,
   mkHealthResponse (if unhealthy then "unhealthy" else "healthy")
     healthyCount (Z.of_nat (length backends)) backendStatuses).

(** [ServeHTTP]: the HTTP status written to the client, with the balancer
    and the heap when the handler returns (deferred calls included).
    [w.WriteHeader] panics on a status outside [100, 999]. *)
Definition ServeHTTP (lb : Balancer) (h : Heap) (path : string) (request : Request)
    (outcome : ProxyOutcome) : result Z * Balancer * Heap :=
  if decide (path = "/health"%string) then (Ret (handleHealthCheck lb h).1, lb, h)
  else
    let '(selected, lb1, h1) := @SelectBackend _ Balancer_LoadBalancer lb h request in
    match selected with
    | Panic => (Panic, lb1, h1)
    | Ret None => (Ret 503, lb1, h1)
    | Ret (Some backend) =>
        match outcome with
        | ProxyRequestError => (Ret 500, lb1, h1)
        | BackendError =>
            (Ret 502, lb1, release lb1 (AddInt32_ErrorCount h1 backend 1) backend)
        | CopyError StatusCode =>
            if (StatusCode <? 100) || (999 <? StatusCode)
            then (Panic, lb1, release lb1 h1 backend)
            else (Ret StatusCode, lb1, release lb1 (AddInt32_ErrorCount h1 backend 1) backend)
        | Relayed StatusCode =>
            if (StatusCode <? 100) || (999 <? StatusCode)
            then (Panic, lb1, release lb1 h1 backend)
            else (Ret StatusCode, lb1,
                  release lb1 (AddInt32_SuccessCount h1 backend 1) backend)
        end
    end.

End Dispatcher.

(** ** main.go: flags and start-up *)

(** [strings.Split(s, ",")]. *)
Fixpoint Split (s : string) : list string :=
  match s with
  | EmptyString => [EmptyString]
  | String c rest =>
      if bool_decide (c = ","%char) then EmptyString :: Split rest
      else
        match Split rest with
        | first :: others => String c first :: others
        | [] => [String c EmptyString]
        end
  end.

(** The number of commas of a string. *)
Fixpoint commas (s : string) : nat :=
  match s with
  | EmptyString => O
  | String c rest => if bool_decide (c = ","%char) then S (commas rest) else commas rest
  end.

Section Startup.

(** [strings.TrimSpace], and [url.Parse] followed by [URL.String]: the
    printed URL, or the text of the error. *)
Variable strings_TrimSpace : string -> string.
Variable url_Parse : string -> string + string.

(** The backend list [parseFlags] builds from the [-backends] flag. *)
Definition parseBackends (backends : string) : list string :=
  if bool_decide (backends <> EmptyString)
  then strings_TrimSpace <$> Split backends
  else [].

(** The loop of [main] that registers the configured backends; [next] is
    the location the next [&balancer.Backend{...}] is allocated at. *)
Fixpoint addBackends (lb : Balancer) (h : Heap) (next : loc) (urls : list string)
  : string + Balancer * Heap * loc :=
  match urls with
  | [] => inr (lb, h, next)
  | backendURL :: rest =>
      match url_Parse backendURL with
      | inr err => inl ("Invalid backend URL " +:+ backendURL +:+ ": " +:+ err)%string
      | inl parsedURL =>
          addBackends (Balancer_AddBackend lb next)
            (store h next (mkBackend parsedURL true 0 0 0)) (S next) rest
      end
  end.

(** [main] up to the point where the health checker and the server are
    started: a fatal message, or the balancer and the heap it serves
    with. *)
Inductive Started : Type :=
| StartFatal (message : string)
| Serving (lb : Balancer) (h : Heap).

Definition main_start (config : Config) : Started :=
  match validateConfig config with
  | Some err => StartFatal ("Configuration error: " +:+ err)
  | None =>
      match createLoadBalancer (Algorithm config) with
      | inr err => StartFatal ("Error creating load balancer: " +:+ err)
      | inl loadBalancer =>
          match addBackends loadBalancer (fun _ => mkBackend "" false 0 0 0) 0%nat
                  (Backends config) with
          | inl err => StartFatal err
          | inr (lb, h, _) => Serving lb h
          end
      end
  end.

End Startup.

(** The strategy a balancer value carries, by the name of the algorithm. *)
Definition strategy_name (lb : Balancer) : string :=
  match lb with
  | OfRoundRobin _ => "round-robin"
  | OfLeastConnections _ => "least-connections"
  | OfIPHash _ => "ip-hash"
  end.

(** ** Health checker: start and stop *)

(** The flag [running], whether [cancel] was called on the context made
    by [NewHealthChecker], and the number of loop goroutines alive. *)
Record HealthChecker : Type := mkHealthChecker {
  hc_running : Z;          (* int32 *)
  hc_cancelled : bool;
  hc_loops : nat
}.

Definition NewHealthChecker : HealthChecker := mkHealthChecker 0 false 0.

(** [CompareAndSwapInt32(&hc.running, 0, 1)], then [go func() {...}()]. *)
Definition StartHealthCheck (hc : HealthChecker) : HealthChecker :=
  if hc_running hc =? 0 then mkHealthChecker 1 (hc_cancelled hc) (S (hc_loops hc))
  else hc.

Definition StopHealthCheck (hc : HealthChecker) : HealthChecker :=
  if hc_running hc =? 0 then hc
  else mkHealthChecker (hc_running hc) true (hc_loops hc).

(** A loop goroutine takes the [ctx.Done()] case and returns; its deferred
    [StoreInt32(&hc.running, 0)] runs. Possible only for a live loop on a
    cancelled context. *)
Definition loop_exit (hc : HealthChecker) : option HealthChecker :=
  if hc_cancelled hc && (0 <? hc_loops hc)%nat
  then Some (mkHealthChecker 0 (hc_cancelled hc) (Nat.pred (hc_loops hc)))
  else None.

Inductive HealthCheckerEvent : Type :=
| CallStart
| CallStop
| LoopExits.

Definition hc_step (hc : HealthChecker) (event : HealthCheckerEvent) : option HealthChecker :=
  match event with
  | CallStart => Some (StartHealthCheck hc)
  | CallStop => Some (StopHealthCheck hc)
  | LoopExits => loop_exit hc
  end.

(** The checker after a sequence of events, when each is possible. *)
Fixpoint hc_run (hc : HealthChecker) (events : list HealthCheckerEvent)
  : option HealthChecker :=
  match events with
  | [] => Some hc
  | event :: rest =>
      match hc_step hc event with
      | Some hc' => hc_run hc' rest
      | None => None
      end
  end.

(** Stopped with no loop, or running with exactly one. *)
Definition hc_consistent (hc : HealthChecker) : Prop :=
  (hc_running hc = 0 /\ hc_loops hc = 0%nat) \/ (hc_running hc = 1 /\ hc_loops hc = 1%nat).

(** * Properties *)

(** ** Machine integers *)

Lemma wrap_int32_id z : int32_range z -> wrap_int32 z = z.
Proof.
  unfold int32_range, int32_min, int32_max, wrap_int32. intros Hz.
  rewrite Z.mod_small; lia.
Qed.

Lemma wrap_int32_in_range z : int32_range (wrap_int32 z).
Proof.
  unfold int32_range, int32_min, int32_max, wrap_int32.
  pose proof (Z.mod_pos_bound (z + 2 ^ 31) (2 ^ 32)). lia.
Qed.

Lemma wrap_int32_succ_pred z :
  int32_range z -> wrap_int32 (wrap_int32 (z + 1) + -1) = z.
Proof.
  unfold int32_range, int32_min, int32_max, wrap_int32. intros Hz.
  replace ((z + 1 + 2 ^ 31) mod 2 ^ 32 - 2 ^ 31 + -1 + 2 ^ 31)
    with ((z + 1 + 2 ^ 31) mod 2 ^ 32 - 1) by lia.
  rewrite Zminus_mod_idemp_l.
  replace (z + 1 + 2 ^ 31 - 1) with (z + 2 ^ 31) by lia.
  rewrite Z.mod_small; lia.
Qed.

Lemma wrap_uint64_id z : uint64_range z -> wrap_uint64 z = z.
Proof. unfold uint64_range, wrap_uint64. intros Hz. by apply Z.mod_small. Qed.

(** ** The heap *)

Lemma store_eq h p b : store h p b p = b.
Proof. unfold store. by rewrite decide_True. Qed.

Lemma store_ne h p b q : q <> p -> store h p b q = h q.
Proof. intros Hne. unfold store. by rewrite decide_False. Qed.

Lemma AddInt32_Connections_Alive h p delta q :
  Alive (AddInt32_Connections h p delta q) = Alive (h q).
Proof.
  unfold AddInt32_Connections, store. destruct (decide (q = p)) as [->|]; done.
Qed.

Lemma AddInt32_Connections_eq h p delta :
  Connections (AddInt32_Connections h p delta p) = wrap_int32 (Connections (h p) + delta).
Proof. unfold AddInt32_Connections. by rewrite store_eq. Qed.

Lemma AddInt32_Connections_ne h p delta q :
  q <> p -> AddInt32_Connections h p delta q = h q.
Proof. intros Hne. unfold AddInt32_Connections. by rewrite store_ne. Qed.

(** ** The alive sub-list *)

Lemma aliveBackends_elem h backends p :
  p ∈ aliveBackends h backends <-> p ∈ backends /\ Alive (h p) = true.
Proof.
  unfold aliveBackends. rewrite !list_elem_of_In, filter_In. tauto.
Qed.

Lemma aliveBackends_length_le h backends :
  (length (aliveBackends h backends) <= length backends)%nat.
Proof. apply filter_length_le. Qed.

Lemma aliveBackends_ext h h' backends :
  (forall p, Alive (h' p) = Alive (h p)) ->
  aliveBackends h' backends = aliveBackends h backends.
Proof. intros Heq. unfold aliveBackends. apply filter_ext. intros p. apply Heq. Qed.

Lemma aliveBackends_nil_length h backends :
  length backends = 0%nat -> length (aliveBackends h backends) = 0%nat.
Proof. pose proof (aliveBackends_length_le h backends). lia. Qed.

(** Indexing with a remainder of the length never leaves the slice. *)
Lemma lookup_mod_length {A} (l : list A) (z : Z) :
  length l <> 0%nat ->
  exists x, l !! Z.to_nat (z mod Z.of_nat (length l)) = Some x.
Proof.
  intros Hlen. apply lookup_lt_is_Some_2.
  pose proof (Z.mod_pos_bound z (Z.of_nat (length l))). lia.
Qed.

(** ** Round-robin *)

(** What a round-robin selection computes, by the number of alive
    backends. *)
Lemma RoundRobin_select_none rb h request :
  length (aliveBackends h (rr_backends rb)) = 0%nat ->
  RoundRobin_SelectBackend rb h request = (Ret None, rb, h).
Proof.
  intros Hk. unfold RoundRobin_SelectBackend.
  destruct (decide (length (rr_backends rb) = 0%nat)); [done|].
  by rewrite decide_True.
Qed.

Lemma RoundRobin_select_some rb h request :
  length (aliveBackends h (rr_backends rb)) <> 0%nat ->
  exists backend,
    aliveBackends h (rr_backends rb)
      !! Z.to_nat (wrap_uint64 (rr_current rb + 1)
                   mod Z.of_nat (length (aliveBackends h (rr_backends rb))))
      = Some backend /\
    RoundRobin_SelectBackend rb h request =
      (Ret (Some backend),
       mkRoundRobin (rr_backends rb) (wrap_uint64 (rr_current rb + 1)), h).
Proof.
  intros Hk. unfold RoundRobin_SelectBackend.
  destruct (decide (length (rr_backends rb) = 0%nat)) as [Hn|Hn].
  { by apply (aliveBackends_nil_length h) in Hn. }
  rewrite decide_False by done.
  destruct (lookup_mod_length (aliveBackends h (rr_backends rb))
              (wrap_uint64 (rr_current rb + 1)) Hk) as [backend Hb].
  exists backend. by rewrite Hb.
Qed.

Lemma RoundRobin_select_lookup rb h request alive backend :
  aliveBackends h (rr_backends rb) = alive ->
  alive !! Z.to_nat (wrap_uint64 (rr_current rb + 1) mod Z.of_nat (length alive))
    = Some backend ->
  RoundRobin_SelectBackend rb h request =
    (Ret (Some backend),
     mkRoundRobin (rr_backends rb) (wrap_uint64 (rr_current rb + 1)), h).
Proof.
  intros <- Hb.
  assert (length (aliveBackends h (rr_backends rb)) <> 0%nat) as Hk.
  { intros Hk. apply length_zero_iff_nil in Hk. by rewrite Hk in Hb. }
  destruct (RoundRobin_select_some rb h request Hk) as (backend' & Hb' & ->).
  congruence.
Qed.

Lemma RoundRobin_select_frame rb h request :
  let '(_, rb', h') := RoundRobin_SelectBackend rb h request in
  h' = h /\ rr_backends rb' = rr_backends rb.
Proof.
  unfold RoundRobin_SelectBackend.
  destruct (decide (length (rr_backends rb) = 0%nat)); [done|].
  destruct (decide (length (aliveBackends h (rr_backends rb)) = 0%nat)); [done|].
  by destruct (aliveBackends h (rr_backends rb) !! _).
Qed.

(** ** Least-connections: the scanning loop *)

Lemma LeastConnections_scan_snoc h backends backend :
  LeastConnections_scan h (backends ++ [backend]) =
  LeastConnections_step h (LeastConnections_scan h backends) backend.
Proof. unfold LeastConnections_scan. by rewrite fold_left_app. Qed.

Lemma aliveBackends_snoc h backends backend :
  aliveBackends h (backends ++ [backend]) =
  aliveBackends h backends ++ (if Alive (h backend) then [backend] else []).
Proof. unfold aliveBackends. rewrite List.filter_app. simpl. by destruct (Alive (h backend)). Qed.

(** The loop holds a backend exactly when it has met an alive one, and the
    backend it holds is a registered alive one whose count is the current
    minimum candidate. *)
Lemma LeastConnections_scan_inv h backends :
  match LeastConnections_scan h backends with
  | (None, minConnections) => minConnections = -1 /\ aliveBackends h backends = []
  | (Some p, minConnections) =>
      p ∈ backends /\ Alive (h p) = true /\ minConnections = Connections (h p)
  end.
Proof.
  induction backends as [|backend backends IH] using rev_ind; [done|].
  rewrite LeastConnections_scan_snoc, aliveBackends_snoc.
  destruct (LeastConnections_scan h backends) as [[p|] minConnections];
    unfold LeastConnections_step; destruct (Alive (h backend)) eqn:Halive; simpl.
  - destruct IH as (Hin & Hp & Hmin).
    destruct ((minConnections =? -1) || (Connections (h backend) <? minConnections)).
    + split; [set_solver|done].
    + split; [set_solver|done].
  - destruct IH as (Hin & Hp & Hmin). split; [set_solver|done].
  - destruct IH as [-> _]. simpl. split; [set_solver|done].
  - destruct IH as [-> ->]. done.
Qed.

Lemma LeastConnections_select_none lcb h request :
  length (aliveBackends h (lc_backends lcb)) = 0%nat ->
  LeastConnections_SelectBackend lcb h request = (Ret None, lcb, h).
Proof.
  intros Hk. unfold LeastConnections_SelectBackend.
  destruct (decide (length (lc_backends lcb) = 0%nat)); [done|].
  pose proof (LeastConnections_scan_inv h (lc_backends lcb)) as Hinv.
  destruct (LeastConnections_scan h (lc_backends lcb)) as [[p|] minConnections]; [|done].
  destruct Hinv as (Hin & Hp & _).
  assert (p ∈ aliveBackends h (lc_backends lcb)) as Hmem by by apply aliveBackends_elem.
  apply length_zero_iff_nil in Hk. rewrite Hk in Hmem. by apply not_elem_of_nil in Hmem.
Qed.

Lemma LeastConnections_select_some lcb h request :
  length (aliveBackends h (lc_backends lcb)) <> 0%nat ->
  exists backend,
    fst (LeastConnections_scan h (lc_backends lcb)) = Some backend /\
    backend ∈ lc_backends lcb /\ Alive (h backend) = true /\
    LeastConnections_SelectBackend lcb h request =
      (Ret (Some backend), lcb, AddInt32_Connections h backend 1).
Proof.
  intros Hk. unfold LeastConnections_SelectBackend.
  destruct (decide (length (lc_backends lcb) = 0%nat)) as [Hn|Hn].
  { by apply (aliveBackends_nil_length h) in Hn. }
  pose proof (LeastConnections_scan_inv h (lc_backends lcb)) as Hinv.
  destruct (LeastConnections_scan h (lc_backends lcb)) as [[p|] minConnections]; simpl.
  - destruct Hinv as (Hin & Hp & _). by exists p.
  - destruct Hinv as [_ Hnil]. by rewrite Hnil in Hk.
Qed.

(** ** IP-hash: what a selection computes *)

Section IPHashFacts.

Variable md5_Sum : list byte -> vec byte 16.
Variable strings_TrimSpace : string -> string.
Variable net_SplitHostPort : string -> option (string * string).

Local Abbreviation IPHash_select := (IPHash_SelectBackend md5_Sum strings_TrimSpace net_SplitHostPort).
Local Abbreviation clientIP := (getClientIP strings_TrimSpace net_SplitHostPort).

Lemma IPHash_select_none ihb h request :
  length (aliveBackends h (ih_backends ihb)) = 0%nat ->
  IPHash_select ihb h request = (Ret None, ihb, h).
Proof.
  intros Hk. unfold IPHash_SelectBackend.
  destruct (decide (length (ih_backends ihb) = 0%nat)); [done|].
  by rewrite decide_True.
Qed.

(** With at least one alive backend the call either panics, when the alive
    count is a multiple of [2^32], or returns an entry of the alive
    slice. *)
Lemma IPHash_select_some ihb h request :
  length (aliveBackends h (ih_backends ihb)) <> 0%nat ->
  (wrap_uint32 (Z.of_nat (length (aliveBackends h (ih_backends ihb)))) = 0 /\
   IPHash_select ihb h request = (Panic, ihb, h)) \/
  (wrap_uint32 (Z.of_nat (length (aliveBackends h (ih_backends ihb)))) <> 0 /\
   exists backend,
     aliveBackends h (ih_backends ihb)
       !! Z.to_nat (hashIP md5_Sum (clientIP request)
                    mod wrap_uint32 (Z.of_nat (length (aliveBackends h (ih_backends ihb)))))
       = Some backend /\
     IPHash_select ihb h request = (Ret (Some backend), ihb, h)).
Proof.
  intros Hk. unfold IPHash_SelectBackend.
  destruct (decide (length (ih_backends ihb) = 0%nat)) as [Hn|Hn].
  { by apply (aliveBackends_nil_length h) in Hn. }
  rewrite decide_False by done.
  set (alive := aliveBackends h (ih_backends ihb)) in *.
  destruct (decide (wrap_uint32 (Z.of_nat (length alive)) = 0)) as [Hz|Hz]; [by left|].
  right. split; [done|].
  assert (Z.to_nat (hashIP md5_Sum (clientIP request)
                    mod wrap_uint32 (Z.of_nat (length alive))) < length alive)%nat as Hlt.
  { unfold wrap_uint32, uint32_modulus in *.
    pose proof (Z.mod_pos_bound (Z.of_nat (length alive)) (2 ^ 32)).
    pose proof (Z.mod_pos_bound (hashIP md5_Sum (clientIP request))
                  (Z.of_nat (length alive) mod 2 ^ 32)).
    pose proof (Z.mod_le (Z.of_nat (length alive)) (2 ^ 32)). lia. }
  apply lookup_lt_is_Some_2 in Hlt as [backend Hb].
  exists backend. by rewrite Hb.
Qed.

Lemma IPHash_select_frame ihb h request :
  let '(_, ihb', h') := IPHash_select ihb h request in
  h' = h /\ ihb' = ihb.
Proof.
  unfold IPHash_SelectBackend.
  destruct (decide (length (ih_backends ihb) = 0%nat)); [done|].
  destruct (decide (length (aliveBackends h (ih_backends ihb)) = 0%nat)); [done|].
  destruct (decide (wrap_uint32 _ = 0)); [done|].
  by destruct (aliveBackends h (ih_backends ihb) !! _).
Qed.

End IPHashFacts.

(** ** Selection returns an alive backend, or none when there is none *)

Lemma select_sound_none backends h :
  length (aliveBackends h backends) = 0%nat -> select_sound backends h (Ret None).
Proof. intros Hk. split; [done|]. by split. Qed.

Lemma select_sound_some backends h backend :
  backend ∈ aliveBackends h backends -> select_sound backends h (Ret (Some backend)).
Proof.
  intros Hmem. split.
  - intros p [= <-]. by apply aliveBackends_elem.
  - split; [done|]. intros Hk. apply length_zero_iff_nil in Hk.
    rewrite Hk in Hmem. by apply not_elem_of_nil in Hmem.
Qed.

Lemma select_sound_panic backends h :
  length (aliveBackends h backends) <> 0%nat -> select_sound backends h Panic.
Proof. intros Hk. split; [done|]. by split. Qed.

Lemma RoundRobin_select_sound rb h request :
  select_sound (rr_backends rb) h (RoundRobin_SelectBackend rb h request).1.1 /\
  (RoundRobin_SelectBackend rb h request).1.1 <> Panic.
Proof.
  destruct (decide (length (aliveBackends h (rr_backends rb)) = 0%nat)) as [Hk|Hk].
  - rewrite RoundRobin_select_none by done. split; [by apply select_sound_none|done].
  - destruct (RoundRobin_select_some rb h request Hk) as (backend & Hb & ->).
    split; [|done]. apply select_sound_some. by eapply list_elem_of_lookup_2.
Qed.

Lemma LeastConnections_select_sound lcb h request :
  select_sound (lc_backends lcb) h (LeastConnections_SelectBackend lcb h request).1.1 /\
  (LeastConnections_SelectBackend lcb h request).1.1 <> Panic.
Proof.
  destruct (decide (length (aliveBackends h (lc_backends lcb)) = 0%nat)) as [Hk|Hk].
  - rewrite LeastConnections_select_none by done. split; [by apply select_sound_none|done].
  - destruct (LeastConnections_select_some lcb h request Hk) as (backend & _ & Hin & Hp & ->).
    split; [|done]. apply select_sound_some. by apply aliveBackends_elem.
Qed.

Lemma IPHash_select_sound md5_Sum strings_TrimSpace net_SplitHostPort ihb h request :
  let r := (IPHash_SelectBackend md5_Sum strings_TrimSpace net_SplitHostPort
              ihb h request).1.1 in
  select_sound (ih_backends ihb) h r /\
  (Z.of_nat (length (aliveBackends h (ih_backends ihb))) < uint32_modulus -> r <> Panic).
Proof.
  simpl.
  destruct (decide (length (aliveBackends h (ih_backends ihb)) = 0%nat)) as [Hk|Hk].
  - rewrite IPHash_select_none by done. split; [by apply select_sound_none|done].
  - destruct (IPHash_select_some md5_Sum strings_TrimSpace net_SplitHostPort
                ihb h request Hk) as [[Hz ->]|[Hz (backend & Hb & ->)]]; simpl.
    + split; [by apply select_sound_panic|].
      intros Hlt. unfold wrap_uint32 in Hz. rewrite Z.mod_small in Hz; lia.
    + split; [|done]. apply select_sound_some. by eapply list_elem_of_lookup_2.
Qed.

(** C1. For each of the three strategies, whatever the registry and the
    heap: [SelectBackend] never returns a backend whose [Alive] flag is
    false in the heap it checks, and it returns "none" if and only if the
    number [k] of alive registered backends is zero. Round-robin and
    least-connections always return; IP-hash returns whenever [k] fits a
    [uint32]. *)
Theorem C1_select_alive_iff_some_alive :
  (forall rb h request,
     select_sound (rr_backends rb) h (RoundRobin_SelectBackend rb h request).1.1 /\
     (RoundRobin_SelectBackend rb h request).1.1 <> Panic) /\
  (forall lcb h request,
     select_sound (lc_backends lcb) h (LeastConnections_SelectBackend lcb h request).1.1 /\
     (LeastConnections_SelectBackend lcb h request).1.1 <> Panic) /\
  (forall md5_Sum strings_TrimSpace net_SplitHostPort ihb h request,
     let r := (IPHash_SelectBackend md5_Sum strings_TrimSpace net_SplitHostPort
                 ihb h request).1.1 in
     select_sound (ih_backends ihb) h r /\
     (Z.of_nat (length (aliveBackends h (ih_backends ihb))) < uint32_modulus ->
      r <> Panic)).
Proof.
  split; [|split].
  - apply RoundRobin_select_sound.
  - apply LeastConnections_select_sound.
  - apply IPHash_select_sound.
Qed.

(** ** Round-robin from a fresh balancer *)

(** C3. A fresh round-robin balancer with [b0], [b1], [b2] added in this
    order, all three alive: the cursor is incremented before it indexes,
    so the first call returns [b1] and the second returns [b2]. *)
Theorem C3_round_robin_first_calls h b0 b1 b2 request1 request2 :
  Alive (h b0) = true -> Alive (h b1) = true -> Alive (h b2) = true ->
  let rb := AddBackend (AddBackend (AddBackend NewRoundRobinBalancer b0) b1) b2 in
  let '(r1, rb1, h1) := SelectBackend rb h request1 in
  let '(r2, _, _) := SelectBackend rb1 h1 request2 in
  r1 = Ret (Some b1) /\ r2 = Ret (Some b2).
Proof.
  intros H0 H1 H2.
  assert (aliveBackends h [b0; b1; b2] = [b0; b1; b2]) as Halive.
  { unfold aliveBackends. simpl. by rewrite H0, H1, H2. }
  cbn.
  rewrite (RoundRobin_select_lookup _ h request1 [b0; b1; b2] b1) by done. cbn.
  rewrite (RoundRobin_select_lookup _ h request2 [b0; b1; b2] b2) by done.
  done.
Qed.

Lemma C3_round_robin_first_calls_witness :
  let h := heap3 (fun _ => true) in
  let '(r1, rb1, h1) := SelectBackend rr3 h anyRequest in
  let '(r2, _, _) := SelectBackend rb1 h1 anyRequest in
  r1 = Ret (Some 1%nat) /\ r2 = Ret (Some 2%nat).
Proof.
  exact (C3_round_robin_first_calls (heap3 (fun _ => true)) 0%nat 1%nat 2%nat
           anyRequest anyRequest eq_refl eq_refl eq_refl).
Defined.

(** On the sample registry the first call returns backend [1], not
    backend [0], and the second returns backend [2], not backend [1]. *)
Lemma C3_first_call_is_not_backend0 :
  let h := heap3 (fun _ => true) in
  let '(r1, rb1, h1) := SelectBackend rr3 h anyRequest in
  let '(r2, _, _) := SelectBackend rb1 h1 anyRequest in
  ~ (r1 = Ret (Some 0%nat) /\ r2 = Ret (Some 1%nat)).
Proof. vm_compute. intros [[=] _]. Qed.

(** ** Round-robin and IP-hash leave the backends alone *)

(** C9. A round-robin or IP-hash selection returns the heap it was given:
    no [Alive] flag, connection count or success/error counter of any
    backend changes. The round-robin registry keeps its entries (only the
    cursor may move), and the IP-hash balancer is returned as it was. *)
Theorem C9_select_frame :
  (forall rb h request,
     let '(_, rb', h') := RoundRobin_SelectBackend rb h request in
     h' = h /\ rr_backends rb' = rr_backends rb) /\
  (forall md5_Sum strings_TrimSpace net_SplitHostPort ihb h request,
     let '(_, ihb', h') :=
       IPHash_SelectBackend md5_Sum strings_TrimSpace net_SplitHostPort ihb h request in
     h' = h /\ ihb' = ihb).
Proof.
  split.
  - apply RoundRobin_select_frame.
  - apply IPHash_select_frame.
Qed.

(** Least-connections, in contrast, writes the count of the backend it
    returns. *)
Example LeastConnections_select_writes :
  let h := heap3 (fun _ => true) in
  let '(r, _, h') := LeastConnections_SelectBackend (mkLeastConnections [0; 1; 2]%nat) h anyRequest in
  r = Ret (Some 0%nat) /\ Connections (h 0%nat) = 0 /\ Connections (h' 0%nat) = 1.
Proof. by vm_compute. Qed.

(** ** IP-hash is a function of the client identifier and the alive slice *)

Lemma IPHash_select_by_alive md5_Sum strings_TrimSpace net_SplitHostPort
    ihb1 h1 request1 ihb2 h2 request2 :
  getClientIP strings_TrimSpace net_SplitHostPort request1 =
  getClientIP strings_TrimSpace net_SplitHostPort request2 ->
  aliveBackends h1 (ih_backends ihb1) = aliveBackends h2 (ih_backends ihb2) ->
  (IPHash_SelectBackend md5_Sum strings_TrimSpace net_SplitHostPort ihb1 h1 request1).1.1 =
  (IPHash_SelectBackend md5_Sum strings_TrimSpace net_SplitHostPort ihb2 h2 request2).1.1.
Proof.
  intros Hip Halive.
  destruct (decide (length (aliveBackends h2 (ih_backends ihb2)) = 0%nat)) as [Hk|Hk].
  - rewrite !IPHash_select_none; [done..|by rewrite Halive].
  - unfold IPHash_SelectBackend.
    destruct (decide (length (ih_backends ihb1) = 0%nat)) as [Hn|_].
    { apply (aliveBackends_nil_length h1) in Hn. by rewrite Halive in Hn. }
    destruct (decide (length (ih_backends ihb2) = 0%nat)) as [Hn|_].
    { by apply (aliveBackends_nil_length h2) in Hn. }
    rewrite Halive, Hip.
    destruct (decide (length (aliveBackends h2 (ih_backends ihb2)) = 0%nat)); [done|].
    destruct (decide (wrap_uint32 _ = 0)); [done|].
    by destruct (aliveBackends h2 (ih_backends ihb2) !! _).
Qed.

(** C5. Two IP-hash selections whose requests derive the same client
    identifier, the second made in the state the first one left, return
    the same backend; more generally the result depends on the registry
    and the heap only through the alive slice. *)
Theorem C5_ip_hash_deterministic md5_Sum strings_TrimSpace net_SplitHostPort
    ihb h request1 request2 :
  getClientIP strings_TrimSpace net_SplitHostPort request1 =
  getClientIP strings_TrimSpace net_SplitHostPort request2 ->
  (let '(r1, ihb1, h1) :=
     IPHash_SelectBackend md5_Sum strings_TrimSpace net_SplitHostPort ihb h request1 in
   let '(r2, _, _) :=
     IPHash_SelectBackend md5_Sum strings_TrimSpace net_SplitHostPort ihb1 h1 request2 in
   r1 = r2) /\
  (forall ihb' h',
     aliveBackends h' (ih_backends ihb') = aliveBackends h (ih_backends ihb) ->
     (IPHash_SelectBackend md5_Sum strings_TrimSpace net_SplitHostPort ihb' h' request2).1.1 =
     (IPHash_SelectBackend md5_Sum strings_TrimSpace net_SplitHostPort ihb h request1).1.1).
Proof.
  intros Hip. split.
  - pose proof (IPHash_select_by_alive md5_Sum strings_TrimSpace net_SplitHostPort
                  ihb h request1 ihb h request2 Hip eq_refl) as Heq.
    pose proof (IPHash_select_frame md5_Sum strings_TrimSpace net_SplitHostPort
                  ihb h request1) as Hframe.
    destruct (IPHash_SelectBackend md5_Sum strings_TrimSpace net_SplitHostPort ihb h request1)
      as [[r1 ihb1] h1].
    destruct Hframe as [-> ->].
    destruct (IPHash_SelectBackend md5_Sum strings_TrimSpace net_SplitHostPort ihb h request2)
      as [[r2 ihb2] h2].
    done.
  - intros ihb' h' Halive. by apply IPHash_select_by_alive.
Qed.

(** ** Configuration validation *)

Lemma validAlgorithms_lookup name :
  default false (validAlgorithms !! name) = true <-> valid_algorithm_name name.
Proof.
  unfold validAlgorithms, valid_algorithm_name.
  rewrite !lookup_insert, lookup_empty.
  repeat case_decide; simpl; subst; split; intros Hn; try done; try tauto.
  destruct Hn as [?|[?|?]]; congruence.
Qed.

(** C8. [validateConfig] returns an error, and [main] stops with it,
    exactly when the backend list is empty, or the algorithm is none of
    round-robin, least-connections, ip-hash, or the health-check interval
    is not positive, or the health-check timeout is not positive; a
    configuration that passes the four conditions is accepted. *)
Theorem C8_validateConfig_iff config :
  (validateConfig config <> None <->
     Backends config = [] \/ ~ valid_algorithm_name (Algorithm config) \/
     HealthCheckInterval config <= 0 \/ HealthCheckTimeout config <= 0) /\
  (main_validate config <> Proceed <-> validateConfig config <> None) /\
  (Backends config <> [] /\ valid_algorithm_name (Algorithm config) /\
   0 < HealthCheckInterval config /\ 0 < HealthCheckTimeout config <->
   validateConfig config = None).
Proof.
  pose proof (validAlgorithms_lookup (Algorithm config)) as Halg.
  unfold main_validate, validateConfig.
  destruct (decide (length (Backends config) = 0%nat)) as [Hlen|Hlen].
  { apply length_zero_iff_nil in Hlen. split; [|split]; split; try done; tauto. }
  assert (Backends config <> []) as Hne.
  { intros Heq. by rewrite Heq in Hlen. }
  destruct (default false (validAlgorithms !! Algorithm config)); simpl.
  - assert (valid_algorithm_name (Algorithm config)) as Hv by by apply Halg.
    destruct (Z.leb_spec (HealthCheckInterval config) 0);
      [split; [|split]; split; try done; try tauto; lia|].
    destruct (Z.leb_spec (HealthCheckTimeout config) 0);
      [split; [|split]; split; try done; try tauto; lia|].
    split; [|split]; split; try done; try tauto.
    intros [?|[?|[?|?]]]; try done; lia.
  - assert (~ valid_algorithm_name (Algorithm config)) as Hv.
    { intros Hv. apply Halg in Hv. done. }
    split; [|split]; split; try done; tauto.
Qed.

Example validateConfig_defaults :
  validateConfig (mkConfig "8080" ["http://localhost:3001"; "http://localhost:3002"]
                    "round-robin" 30000000000 5000000000) = None.
Proof. reflexivity. Qed.

Example validateConfig_no_backend :
  validateConfig (mkConfig "8080" [] "round-robin" 30000000000 5000000000)
  = Some "at least one backend must be specified"%string.
Proof. reflexivity. Qed.

Example validateConfig_unknown_algorithm :
  validateConfig (mkConfig "8080" ["http://localhost:3001"] "random" 30000000000 5000000000)
  = Some "invalid algorithm: random. Valid options: round-robin, least-connections, ip-hash"%string.
Proof. reflexivity. Qed.

(** ** Health probe classification *)

Lemma AddInt32_SuccessCount_spec h p q :
  let h' := AddInt32_SuccessCount h p 1 in
  SuccessCount (h' p) = wrap_int32 (SuccessCount (h p) + 1) /\
  ErrorCount (h' q) = ErrorCount (h q) /\
  Connections (h' q) = Connections (h q) /\ Alive (h' q) = Alive (h q) /\
  URL (h' q) = URL (h q) /\ (q <> p -> h' q = h q).
Proof.
  simpl. unfold AddInt32_SuccessCount. rewrite store_eq. simpl.
  unfold store. destruct (decide (q = p)) as [->|]; done.
Qed.

Lemma AddInt32_ErrorCount_spec h p q :
  let h' := AddInt32_ErrorCount h p 1 in
  ErrorCount (h' p) = wrap_int32 (ErrorCount (h p) + 1) /\
  SuccessCount (h' q) = SuccessCount (h q) /\
  Connections (h' q) = Connections (h q) /\ Alive (h' q) = Alive (h q) /\
  URL (h' q) = URL (h q) /\ (q <> p -> h' q = h q).
Proof.
  simpl. unfold AddInt32_ErrorCount. rewrite store_eq. simpl.
  unfold store. destruct (decide (q = p)) as [->|]; done.
Qed.

(** C6. [CheckHealth] returns [true] exactly for a response whose status
    is in [200, 300) and [false] for every other outcome. When the probe
    was issued (the round trip failed, or any response arrived), a healthy
    classification adds one to the success counter and keeps the error
    counter, an unhealthy one adds one to the error counter and keeps the
    success counter; the addition is [int32] addition, which is [+ 1]
    below the maximum. No other backend and no other field changes. *)
Theorem C6_CheckHealth_classifies h backend probe :
  let '(healthy, h') := CheckHealth h backend probe in
  healthy = match probe with
            | Response StatusCode => bool_decide (200 <= StatusCode < 300)
            | _ => false
            end /\
  (probe <> NewRequestError ->
   if healthy
   then SuccessCount (h' backend) = wrap_int32 (SuccessCount (h backend) + 1) /\
        ErrorCount (h' backend) = ErrorCount (h backend) /\
        (int32_range (SuccessCount (h backend)) -> SuccessCount (h backend) < int32_max ->
         SuccessCount (h' backend) = SuccessCount (h backend) + 1)
   else ErrorCount (h' backend) = wrap_int32 (ErrorCount (h backend) + 1) /\
        SuccessCount (h' backend) = SuccessCount (h backend) /\
        (int32_range (ErrorCount (h backend)) -> ErrorCount (h backend) < int32_max ->
         ErrorCount (h' backend) = ErrorCount (h backend) + 1)) /\
  (forall q, Connections (h' q) = Connections (h q) /\ Alive (h' q) = Alive (h q) /\
             URL (h' q) = URL (h q) /\ (q <> backend -> h' q = h q)).
Proof.
  assert (forall z, int32_range z -> z < int32_max -> wrap_int32 (z + 1) = z + 1) as Hwrap.
  { intros z Hz Hlt. apply wrap_int32_id. unfold int32_range, int32_max in *. lia. }
  destruct probe as [| |StatusCode]; simpl.
  - done.
  - pose proof (AddInt32_ErrorCount_spec h backend backend) as (He & Hs & _).
    split; [done|]. split; [intros _; by rewrite He, Hs; auto|].
    intros q. pose proof (AddInt32_ErrorCount_spec h backend q). simpl in *. tauto.
  - destruct ((200 <=? StatusCode) && (StatusCode <? 300)) eqn:Hcode.
    + pose proof (AddInt32_SuccessCount_spec h backend backend) as (Hs & He & _).
      split; [symmetry; apply bool_decide_eq_true; lia|].
      split; [intros _; by rewrite He, Hs; auto|].
      intros q. pose proof (AddInt32_SuccessCount_spec h backend q). simpl in *. tauto.
    + pose proof (AddInt32_ErrorCount_spec h backend backend) as (He & Hs & _).
      split; [symmetry; apply bool_decide_eq_false; lia|].
      split; [intros _; by rewrite He, Hs; auto|].
      intros q. pose proof (AddInt32_ErrorCount_spec h backend q). simpl in *. tauto.
Qed.

Lemma C6_CheckHealth_classifies_witness :
  let h := heap3 (fun _ => true) in
  let '(healthy, h') := CheckHealth h 1%nat (Response 204) in
  healthy = true /\ SuccessCount (h' 1%nat) = 1 /\ ErrorCount (h' 1%nat) = 0.
Proof.
  pose proof (C6_CheckHealth_classifies (heap3 (fun _ => true)) 1%nat (Response 204)) as H.
  simpl in H. destruct H as (_ & H & _).
  destruct (H ltac:(discriminate)) as (Hs & He & _).
  simpl. split; [reflexivity|]. split; [exact Hs|exact He].
Defined.

(** A probe whose request cannot be built is classified unhealthy and no
    counter moves: the error counter is not incremented. *)
Lemma C6_unbuilt_request_counts_nothing :
  let h := heap3 (fun _ => true) in
  let '(healthy, h') := CheckHealth h 1%nat NewRequestError in
  healthy = false /\ ErrorCount (h' 1%nat) = ErrorCount (h 1%nat) /\
  ErrorCount (h' 1%nat) <> ErrorCount (h 1%nat) + 1.
Proof. by vm_compute. Qed.

(** At the maximum the success counter wraps around. *)
Example CheckHealth_counter_wraps :
  let h : Heap := fun _ => mkBackend "http://localhost:3001" true 0 int32_max 0 in
  let '(healthy, h') := CheckHealth h 0%nat (Response 200) in
  healthy = true /\ SuccessCount (h' 0%nat) = int32_min.
Proof. by vm_compute. Qed.

(** ** The IP-hash fingerprint *)

Lemma hex_digit_value n :
  (n < 16)%N ->
  digit_value (hex_digit n) = Some (Z.of_N n) /\
  hex_digit n <> "+"%char /\ hex_digit n <> "-"%char.
Proof.
  intros Hn. assert (N.to_nat n < 16)%nat as Hm by lia.
  rewrite <- (N2Nat.id n). generalize dependent (N.to_nat n). clear n Hn.
  intros m Hm. do 16 (destruct m as [|m]; [by vm_compute|]). lia.
Qed.

Lemma byte_nibbles b :
  (Byte.to_N b / 16 < 16)%N /\ (Byte.to_N b mod 16 < 16)%N /\
  Z.of_N (Byte.to_N b) = Z.of_N (Byte.to_N b / 16) * 16 + Z.of_N (Byte.to_N b mod 16) /\
  0 <= Z.of_N (Byte.to_N b) < 256.
Proof.
  pose proof (Byte.to_N_bounded b) as Hb.
  pose proof (N.div_mod (Byte.to_N b) 16 ltac:(done)) as Hdm.
  pose proof (N.mod_upper_bound (Byte.to_N b) 16 ltac:(done)).
  assert (Byte.to_N b / 16 < 16)%N by (apply N.Div0.div_lt_upper_bound; lia).
  lia.
Qed.

(** One formatted byte moves the accumulator of the digit loop one byte to
    the left, as long as the accumulator has room for it. *)
Lemma ParseUint_loop_hex_byte b bs n :
  0 <= n < 2 ^ 56 ->
  ParseUint_loop 16 (Sprintf_x (b :: bs)) n =
  ParseUint_loop 16 (Sprintf_x bs) (n * 256 + Z.of_N (Byte.to_N b)).
Proof.
  intros Hn. destruct (byte_nibbles b) as (Hhi & Hlo & Hb & _).
  destruct (hex_digit_value _ Hhi) as (Hdhi & _).
  destruct (hex_digit_value _ Hlo) as (Hdlo & _).
  simpl. rewrite Hdhi, Hdlo.
  change (maxUint64 / 16 + 1) with (2 ^ 60). unfold maxUint64.
  assert (forall m : N, (m < 16)%N -> 0 <= Z.of_N m < 16) as Hconv by lia.
  apply Hconv in Hhi, Hlo. clear Hconv.
  generalize dependent (Z.of_N (Byte.to_N b / 16)).
  generalize dependent (Z.of_N (Byte.to_N b mod 16)).
  intros lo Hlo Hdlo hi Hhi Hb Hdhi.
  repeat match goal with
         | |- context [?x <=? ?y] => destruct (Z.leb_spec x y); [lia|]
         | |- context [?x <? ?y] => destruct (Z.ltb_spec x y); [lia|]
         end.
  f_equal. lia.
Qed.

Lemma be_value_four b0 b1 b2 b3 :
  be_value [b0; b1; b2; b3] =
  ((Z.of_N (Byte.to_N b0) * 256 + Z.of_N (Byte.to_N b1)) * 256
   + Z.of_N (Byte.to_N b2)) * 256 + Z.of_N (Byte.to_N b3).
Proof. reflexivity. Qed.

Lemma ParseInt_unsigned c rest base un :
  c <> "+"%char -> c <> "-"%char ->
  ParseUint_loop base (String c rest) 0 = (un, None) ->
  0 <= un < 2 ^ 63 ->
  ParseInt (String c rest) base = (un, None).
Proof.
  intros Hplus Hminus Hloop Hun. unfold ParseInt, ParseUint.
  rewrite !bool_decide_eq_false_2 by done. cbv [orb negb andb]. rewrite Hloop.
  destruct (Z.leb_spec (2 ^ 63) un); [lia|done].
Qed.

Lemma ParseInt_Sprintf_x_four b0 b1 b2 b3 :
  ParseInt (Sprintf_x [b0; b1; b2; b3]) 16 = (be_value [b0; b1; b2; b3], None) /\
  0 <= be_value [b0; b1; b2; b3] < 2 ^ 32.
Proof.
  rewrite be_value_four.
  destruct (byte_nibbles b0) as (Hhi & _ & _ & H0).
  destruct (byte_nibbles b1) as (_ & _ & _ & H1).
  destruct (byte_nibbles b2) as (_ & _ & _ & H2).
  destruct (byte_nibbles b3) as (_ & _ & _ & H3).
  destruct (hex_digit_value _ Hhi) as (_ & Hplus & Hminus).
  split; [|lia].
  assert (ParseUint_loop 16 (Sprintf_x [b0; b1; b2; b3]) 0 =
          (((Z.of_N (Byte.to_N b0) * 256 + Z.of_N (Byte.to_N b1)) * 256
            + Z.of_N (Byte.to_N b2)) * 256 + Z.of_N (Byte.to_N b3), None)) as Hloop.
  { rewrite !ParseUint_loop_hex_byte by lia. reflexivity. }
  apply ParseInt_unsigned; [done|done|exact Hloop|lia].
Qed.

Lemma vec16_take4 {A} (v : vec A 16) :
  exists a0 a1 a2 a3, take 4 (vec_to_list v) = [a0; a1; a2; a3].
Proof.
  pose proof (length_vec_to_list v) as Hlen.
  destruct (vec_to_list v) as [|a0 [|a1 [|a2 [|a3 rest]]]]; try done.
  by exists a0, a1, a2, a3.
Qed.

(** C10. For every input the fingerprint parses its own eight hexadecimal
    digits without an error, so [hashIP] is the unsigned 32-bit big-endian
    value of the first four bytes of the MD5 digest of the input, and the
    [return 0] of the error branch is never taken. *)
Theorem C10_hashIP_is_digest_prefix (md5_Sum : list byte -> vec byte 16) (ip : string) :
  let prefix := take 4 (vec_to_list (md5_Sum (list_byte_of_string ip))) in
  ParseInt (Sprintf_x prefix) 16 = (be_value prefix, None) /\
  hashIP md5_Sum ip = be_value prefix /\
  0 <= hashIP md5_Sum ip < uint32_modulus.
Proof.
  simpl. unfold hashIP.
  destruct (vec16_take4 (md5_Sum (list_byte_of_string ip))) as (b0 & b1 & b2 & b3 & ->).
  destruct (ParseInt_Sprintf_x_four b0 b1 b2 b3) as [-> Hrange].
  unfold wrap_uint32, uint32_modulus. rewrite Z.mod_small by done. done.
Qed.

(** ** Least-connections picks the first least-loaded alive backend *)

(** The loop's candidate is the first least-loaded alive entry of the part
    of the registry it has scanned, as long as no alive entry there has
    the count [-1], the value the loop starts [minConnections] with. *)
Lemma LeastConnections_scan_first_least h backends :
  (forall q, q ∈ backends -> Alive (h q) = true -> Connections (h q) <> -1) ->
  forall p minConnections,
    LeastConnections_scan h backends = (Some p, minConnections) ->
    first_least_loaded h backends p.
Proof.
  induction backends as [|x pre IH] using rev_ind; [done|].
  intros Hsentinel p minConnections.
  assert (forall q, q ∈ pre -> Alive (h q) = true -> Connections (h q) <> -1) as Hpre.
  { intros q Hq. apply Hsentinel. set_solver. }
  specialize (IH Hpre).
  rewrite LeastConnections_scan_snoc.
  pose proof (LeastConnections_scan_inv h pre) as Hinv.
  destruct (LeastConnections_scan h pre) as [[p0|] min0]; unfold LeastConnections_step.
  - (* a candidate is held *)
    destruct Hinv as (Hin0 & Halive0 & ->).
    destruct (IH p0 _ eq_refl) as (i & Hi & _ & Hleast).
    pose proof (lookup_lt_Some _ _ _ Hi) as Hilt.
    assert ((Connections (h p0) =? -1) = false) as ->.
    { apply Z.eqb_neq. by apply Hpre. }
    destruct (Alive (h x)) eqn:Hx; simpl.
    + destruct (Z.ltb_spec (Connections (h x)) (Connections (h p0))) as [Hlt|Hge];
        intros [= <- <-].
      * exists (length pre). split; [by rewrite list_lookup_middle|]. split; [done|].
        intros j q Hj Hq. destruct (decide (j < length pre)%nat) as [Hjlt|Hjge].
        -- rewrite lookup_app_l in Hj by done.
           destruct (Hleast j q Hj Hq) as [Hle _]. lia.
        -- apply lookup_lt_Some in Hj as Hjlen. rewrite length_app in Hjlen. simpl in Hjlen.
           assert (j = length pre) as -> by lia.
           rewrite list_lookup_middle in Hj by done. injection Hj as <-. lia.
      * exists i. split; [by rewrite lookup_app_l|]. split; [done|].
        intros j q Hj Hq. destruct (decide (j < length pre)%nat) as [Hjlt|Hjge].
        -- rewrite lookup_app_l in Hj by done. by apply Hleast.
        -- apply lookup_lt_Some in Hj as Hjlen. rewrite length_app in Hjlen. simpl in Hjlen.
           assert (j = length pre) as -> by lia.
           rewrite list_lookup_middle in Hj by done. injection Hj as <-. lia.
    + intros [= <- <-].
      exists i. split; [by rewrite lookup_app_l|]. split; [done|].
      intros j q Hj Hq. destruct (decide (j < length pre)%nat) as [Hjlt|Hjge].
      * rewrite lookup_app_l in Hj by done. by apply Hleast.
      * apply lookup_lt_Some in Hj as Hjlen. rewrite length_app in Hjlen. simpl in Hjlen.
        assert (j = length pre) as -> by lia.
        rewrite list_lookup_middle in Hj by done. injection Hj as <-. congruence.
  - (* no candidate yet: nothing alive was met *)
    destruct Hinv as [-> Hnone].
    destruct (Alive (h x)) eqn:Hx; simpl; [|done].
    intros [= <- <-].
    exists (length pre). split; [by rewrite list_lookup_middle|]. split; [done|].
    intros j q Hj Hq. destruct (decide (j < length pre)%nat) as [Hjlt|Hjge].
    + rewrite lookup_app_l in Hj by done.
      assert (q ∈ aliveBackends h pre) as Hmem.
      { apply aliveBackends_elem. split; [by eapply list_elem_of_lookup_2|done]. }
      rewrite Hnone in Hmem. by apply not_elem_of_nil in Hmem.
    + apply lookup_lt_Some in Hj as Hjlen. rewrite length_app in Hjlen. simpl in Hjlen.
      assert (j = length pre) as -> by lia.
      rewrite list_lookup_middle in Hj by done. injection Hj as <-. lia.
Qed.



Example LeastConnections_select_busy :
  (LeastConnections_SelectBackend lc3 heapBusy anyRequest).1.1 = Ret (Some 1%nat).
Proof. reflexivity. Qed.

(** Outside the invariant: after a [DecrementConnections] that no
    selection paired, backend [0] counts [-1], the value the scan starts
    [minConnections] with, and the scan goes on to backend [1]. *)
Example LeastConnections_scan_below_zero :
  let h := DecrementConnections (heap3 (fun _ => true)) 0%nat in
  Connections (h 0%nat) = -1 /\ Connections (h 1%nat) = 0 /\
  (LeastConnections_SelectBackend lc3 h anyRequest).1.1 = Ret (Some 1%nat).
Proof. by vm_compute. Qed.

(** ** Least-connections: counting selections *)

Lemma sum_Connections_store (l : list loc) (h h' : Heap) (p : loc) :
  NoDup l ->
  (forall q, q <> p -> Connections (h' q) = Connections (h q)) ->
  fold_right (fun q acc => Connections (h' q) + acc) 0 l =
  fold_right (fun q acc => Connections (h q) + acc) 0 l
  + (if decide (p ∈ l) then Connections (h' p) - Connections (h p) else 0).
Proof.
  intros Hnodup Hother. induction Hnodup as [|x l Hx Hnodup IH]; cbn [fold_right].
  - destruct (decide (p ∈ [])) as [Hin|_]; [|lia]. by apply not_elem_of_nil in Hin.
  - rewrite IH. destruct (decide (x = p)) as [->|Hne].
    + destruct (decide (p ∈ l)); [done|].
      destruct (decide (p ∈ p :: l)) as [_|Hnin]; [lia|]. set_solver.
    + rewrite (Hother x Hne).
      destruct (decide (p ∈ l)) as [Hin|Hnin];
        destruct (decide (p ∈ x :: l)) as [Hin'|Hnin']; try lia.
      * exfalso. apply Hnin'. by right.
      * exfalso. apply elem_of_cons in Hin' as [->|Hin']; done.
Qed.

Lemma totalConnections_select h backends p :
  p ∈ backends ->
  totalConnections (AddInt32_Connections h p 1) backends =
  totalConnections h backends + (wrap_int32 (Connections (h p) + 1) - Connections (h p)).
Proof.
  intros Hin. unfold totalConnections.
  rewrite (sum_Connections_store (remove_dups backends) h (AddInt32_Connections h p 1) p).
  - rewrite decide_True by by apply elem_of_remove_dups.
    by rewrite AddInt32_Connections_eq.
  - apply NoDup_remove_dups.
  - intros q Hne. by rewrite AddInt32_Connections_ne.
Qed.

(** A run of selections on a registry with an alive backend, none of whose
    alive counts can reach the [int32] maximum during the run: every call
    returns a backend and the total grows by the number of calls. *)
Lemma LeastConnections_run_total lcb requests :
  forall h,
    aliveBackends h (lc_backends lcb) <> [] ->
    (forall p, p ∈ lc_backends lcb -> Alive (h p) = true ->
       int32_min <= Connections (h p) /\
       Connections (h p) + Z.of_nat (length requests) <= int32_max) ->
    let '(rs, lcb', h') := run requests lcb h in
    Forall (fun r => exists p, r = Ret (Some p)) rs /\
    length rs = length requests /\ lcb' = lcb /\
    totalConnections h' (lc_backends lcb) =
      totalConnections h (lc_backends lcb) + Z.of_nat (length requests).
Proof.
  induction requests as [|request requests IH]; intros h Halive Hbound.
  { simpl. repeat split; [constructor|lia]. }
  cbn [run SelectBackend LeastConnections_LoadBalancer].
  assert (length (aliveBackends h (lc_backends lcb)) <> 0%nat) as Hk.
  { by rewrite length_zero_iff_nil. }
  destruct (LeastConnections_select_some lcb h request Hk) as (p & _ & Hin & Hp & ->).
  set (h1 := AddInt32_Connections h p 1).
  destruct (Hbound p Hin Hp) as [Hlo Hhi]. simpl length in Hhi.
  assert (wrap_int32 (Connections (h p) + 1) = Connections (h p) + 1) as Hwrap.
  { apply wrap_int32_id. unfold int32_range. lia. }
  assert (aliveBackends h1 (lc_backends lcb) = aliveBackends h (lc_backends lcb)) as Hsame.
  { apply aliveBackends_ext. intros q. apply AddInt32_Connections_Alive. }
  specialize (IH h1). rewrite Hsame in IH. specialize (IH Halive).
  destruct (run requests lcb h1) as [[rs lcb'] h'].
  destruct IH as (Hall & Hlen & -> & Htotal).
  { intros q Hq Hqalive. unfold h1 in Hqalive.
    rewrite AddInt32_Connections_Alive in Hqalive.
    destruct (Hbound q Hq Hqalive) as [Hqlo Hqhi]. simpl length in Hqhi.
    destruct (decide (q = p)) as [->|Hne].
    - unfold h1. rewrite AddInt32_Connections_eq, Hwrap. lia.
    - unfold h1. rewrite AddInt32_Connections_ne by done. lia. }
  split; [constructor; [by exists p|done]|].
  split; [simpl; lia|]. split; [done|].
  rewrite Htotal. unfold h1. rewrite totalConnections_select by done.
  rewrite Hwrap. simpl length. lia.
Qed.

Lemma select_then_decrement h p q :
  int32_range (Connections (h p)) ->
  DecrementConnections (AddInt32_Connections h p 1) p q = h q.
Proof.
  intros Hrange. unfold DecrementConnections.
  unfold AddInt32_Connections at 1. unfold store.
  destruct (decide (q = p)) as [->|Hne].
  - rewrite AddInt32_Connections_eq, wrap_int32_succ_pred by done.
    unfold AddInt32_Connections. rewrite store_eq. by destruct (h p).
  - by rewrite AddInt32_Connections_ne.
Qed.

(** C2. Least-connections, all counts being [int32] values.
    After [m] selections with no completion in between, on a registry with
    an alive backend and no alive count above [2^31 - 1 - m], every
    selection returns a backend and the sum of the connection counts has
    grown by exactly [m]. A successful selection adds one, in [int32]
    arithmetic, to the count of the backend it returns and changes no
    other backend; the paired [DecrementConnections] on that backend gives
    back the heap from before the selection. *)
Theorem C2_least_connections_counts lcb h :
  (forall p, int32_range (Connections (h p))) ->
  (forall requests,
     aliveBackends h (lc_backends lcb) <> [] ->
     (forall p, p ∈ lc_backends lcb -> Alive (h p) = true ->
        Connections (h p) + Z.of_nat (length requests) <= int32_max) ->
     let '(rs, _, h') := run requests lcb h in
     Forall (fun r => exists p, r = Ret (Some p)) rs /\
     length rs = length requests /\
     totalConnections h' (lc_backends lcb) =
       totalConnections h (lc_backends lcb) + Z.of_nat (length requests)) /\
  (forall request p lcb' h',
     SelectBackend lcb h request = (Ret (Some p), lcb', h') ->
     Connections (h' p) = wrap_int32 (Connections (h p) + 1) /\
     (forall q, q <> p -> h' q = h q) /\
     (forall q, DecrementConnections h' p q = h q)).
Proof.
  intros Hrange. split.
  - intros requests Halive Hbound.
    pose proof (LeastConnections_run_total lcb requests h Halive) as Hrun.
    destruct (run requests lcb h) as [[rs lcb'] h'].
    destruct Hrun as (Hall & Hlen & _ & Htotal); [|done].
    intros p Hin Hp. split; [apply Hrange|by apply Hbound].
  - intros request p lcb' h' Hsel. cbn in Hsel.
    destruct (decide (length (aliveBackends h (lc_backends lcb)) = 0%nat)) as [Hk|Hk].
    { by rewrite LeastConnections_select_none in Hsel. }
    destruct (LeastConnections_select_some lcb h request Hk) as (p' & _ & _ & _ & Heq).
    rewrite Heq in Hsel. injection Hsel as -> <- <-.
    split; [apply AddInt32_Connections_eq|].
    split; [intros q Hne; by apply AddInt32_Connections_ne|].
    intros q. by apply select_then_decrement.
Qed.

Lemma C2_least_connections_counts_witness :
  let '(rs, _, h') := run [anyRequest; anyRequest] lc3 heapBusy in
  Forall (fun r => exists p, r = Ret (Some p)) rs /\
  length rs = 2%nat /\
  totalConnections h' (lc_backends lc3) = totalConnections heapBusy (lc_backends lc3) + 2.
Proof.
  assert (forall p, int32_range (Connections (heapBusy p))) as Hrange.
  { intros p. do 3 (destruct p as [|p]; [vm_compute; split; discriminate|]).
    vm_compute; split; discriminate. }
  apply (proj1 (C2_least_connections_counts lc3 heapBusy Hrange) [anyRequest; anyRequest]).
  - vm_compute. discriminate.
  - intros p Hp _. simpl in Hp.
    repeat (apply elem_of_cons in Hp as [->|Hp]; [vm_compute; discriminate|]).
    by apply elem_of_nil in Hp.
Defined.

(** At the largest [int32] the count wraps: one selection takes the sum
    from [2^31 - 1] to [-2^31]. *)
Lemma C2_count_wraps_at_int32_max :
  let lcb := AddBackend NewLeastConnectionsBalancer 0%nat in
  let '(rs, _, h') := run [anyRequest] lcb heapFull in
  rs = [Ret (Some 0%nat)] /\
  totalConnections heapFull (lc_backends lcb) = 2147483647 /\
  totalConnections h' (lc_backends lcb) = -2147483648 /\
  totalConnections h' (lc_backends lcb) <> totalConnections heapFull (lc_backends lcb) + 1.
Proof. by vm_compute. Qed.

(** ** Round-robin: runs of consecutive selections *)

Lemma roundRobin_expected_cons alive c n :
  roundRobin_expected alive c (S n) =
  Ret (alive !! Z.to_nat ((c + 1) mod Z.of_nat (length alive)))
  :: roundRobin_expected alive (c + 1) n.
Proof.
  unfold roundRobin_expected. cbn [seq fmap list_fmap]. f_equal.
  - by replace (c + 1 + Z.of_nat 0) with (c + 1) by lia.
  - rewrite <- fmap_S_seq, <- list_fmap_compose. apply list_fmap_ext.
    intros _ i _. cbn [compose].
    by replace (c + 1 + Z.of_nat (S i)) with (c + 1 + 1 + Z.of_nat i) by lia.
Qed.

(** As long as the cursor stays below [2^64], a run reads the alive slice
    cyclically from the entry after the cursor. *)
Lemma RoundRobin_run_spec requests :
  forall rb h,
    aliveBackends h (rr_backends rb) <> [] ->
    0 <= rr_current rb ->
    rr_current rb + Z.of_nat (length requests) < uint64_modulus ->
    run requests rb h =
      (roundRobin_expected (aliveBackends h (rr_backends rb)) (rr_current rb)
         (length requests),
       mkRoundRobin (rr_backends rb) (rr_current rb + Z.of_nat (length requests)), h).
Proof.
  induction requests as [|request requests IH]; intros rb h Halive Hlo Hhi.
  { simpl. destruct rb as [bs c]. simpl. do 3 f_equal. lia. }
  cbn [run SelectBackend RoundRobin_LoadBalancer].
  assert (length (aliveBackends h (rr_backends rb)) <> 0%nat) as Hk.
  { by rewrite length_zero_iff_nil. }
  destruct (RoundRobin_select_some rb h request Hk) as (backend & Hb & ->).
  simpl length in Hhi.
  assert (wrap_uint64 (rr_current rb + 1) = rr_current rb + 1) as Hwrap.
  { apply wrap_uint64_id. unfold uint64_range. lia. }
  rewrite Hwrap in *.
  rewrite (IH (mkRoundRobin (rr_backends rb) (rr_current rb + 1)) h); simpl; [|done|lia|lia].
  cbn [length]. rewrite roundRobin_expected_cons, Hb.
  do 3 f_equal. lia.
Qed.

Lemma roundRobin_expected_rotate alive c :
  alive <> [] ->
  roundRobin_expected alive c (length alive) =
  (fun p => Ret (Some p))
    <$> rotate (Z.to_nat ((c + 1) mod Z.of_nat (length alive))) alive.
Proof.
  intros Halive. assert (length alive <> 0%nat) as Hk by by rewrite length_zero_iff_nil.
  pose proof (Z.mod_pos_bound (c + 1) (Z.of_nat (length alive)) ltac:(lia)) as Hd.
  apply list_eq. intros i. unfold roundRobin_expected.
  rewrite !list_lookup_fmap.
  destruct (decide (i < length alive)%nat) as [Hi|Hi].
  - rewrite lookup_seq_lt, lookup_rotate_r by done. simpl.
    unfold rotate_nat_add. rewrite Z2Nat.id by lia.
    rewrite Zplus_mod_idemp_l.
    destruct (lookup_mod_length alive (c + 1 + Z.of_nat i) Hk) as [x ->]. done.
  - rewrite lookup_seq_ge by lia.
    rewrite (lookup_ge_None_2 (rotate _ alive)); [done|].
    rewrite length_rotate. lia.
Qed.

(** C4. Round-robin over a fixed alive slice of size [k >= 1], while the
    [uint64] cursor does not pass [2^64]: the [k] results of [k]
    consecutive calls are the alive slice rotated by [(cursor + 1) mod k],
    so every alive backend is returned, runs differ only by that offset,
    and after the run the cursor is [k] further and the offset is the
    same. Nothing but the cursor changes. *)
Theorem C4_round_robin_cycle rb h requests :
  let alive := aliveBackends h (rr_backends rb) in
  let k := length alive in
  k <> 0%nat ->
  length requests = k ->
  0 <= rr_current rb ->
  rr_current rb + Z.of_nat k < uint64_modulus ->
  let '(rs, rb', h') := run requests rb h in
  rs = (fun p => Ret (Some p))
         <$> rotate (Z.to_nat ((rr_current rb + 1) mod Z.of_nat k)) alive /\
  (forall p, p ∈ alive -> Ret (Some p) ∈ rs) /\
  rr_current rb' = rr_current rb + Z.of_nat k /\
  (rr_current rb' + 1) mod Z.of_nat k = (rr_current rb + 1) mod Z.of_nat k /\
  rr_backends rb' = rr_backends rb /\ h' = h.
Proof.
  intros alive k Hk Hlen Hlo Hhi.
  assert (alive <> []) as Halive by by rewrite <- length_zero_iff_nil.
  rewrite RoundRobin_run_spec by (try done; rewrite Hlen; done).
  rewrite Hlen. fold alive. fold k. cbn [rr_current rr_backends].
  split; [by apply roundRobin_expected_rotate|].
  split.
  { intros p Hp. unfold k. rewrite roundRobin_expected_rotate by done.
    apply (list_elem_of_fmap_2 (fun q : loc => Ret (Some q))). by apply elem_of_rotate. }
  split; [done|]. split; [|done].
  replace (rr_current rb + Z.of_nat k + 1) with (rr_current rb + 1 + 1 * Z.of_nat k) by lia.
  apply Z_mod_plus_full.
Qed.

Lemma C4_round_robin_cycle_witness :
  let '(rs, rb', _) :=
    run [anyRequest; anyRequest; anyRequest] rr3 (heap3 (fun _ => true)) in
  rs = [Ret (Some 1%nat); Ret (Some 2%nat); Ret (Some 0%nat)] /\ rr_current rb' = 3.
Proof.
  pose proof (C4_round_robin_cycle rr3 (heap3 (fun _ => true))
                [anyRequest; anyRequest; anyRequest]) as H.
  cbv zeta in H.
  specialize (H ltac:(vm_compute; discriminate) eq_refl
                ltac:(vm_compute; discriminate) ltac:(vm_compute; reflexivity)).
  vm_compute in H. destruct H as (Hrs & _ & Hcur & _).
  vm_compute. split; [exact Hrs|exact Hcur].
Defined.

(** Three alive backends and a cursor at [2^64 - 2]: the next three calls
    index at [(2^64 - 1) mod 3 = 0], [0 mod 3 = 0] and [1 mod 3 = 1], so
    backend [2] is not visited. *)
Lemma C4_cursor_overflow_skips_backend :
  let h := heap3 (fun _ => true) in
  let '(rs, rb', _) := run [anyRequest; anyRequest; anyRequest] rrLate h in
  aliveBackends h (rr_backends rrLate) = [0; 1; 2]%nat /\
  rs = [Ret (Some 0%nat); Ret (Some 0%nat); Ret (Some 1%nat)] /\
  rr_current rb' = 1 /\
  Ret (Some 2%nat) ∉ rs.
Proof.
  vm_compute. repeat split.
  intros Hin.
  repeat (apply elem_of_cons in Hin as [Hin|Hin]; [discriminate|]).
  by apply elem_of_nil in Hin.
Qed.

(** ** The instances at work *)

(** The test suite of RFC 1321, section A.5. *)
Example MD5_empty :
  Sprintf_x (vec_to_list (MD5.Sum (list_byte_of_string "")))
  = "d41d8cd98f00b204e9800998ecf8427e"%string.
Proof. by vm_compute. Qed.

Example MD5_abc :
  Sprintf_x (vec_to_list (MD5.Sum (list_byte_of_string "abc")))
  = "900150983cd24fb0d6963f7d28e17f72"%string.
Proof. by vm_compute. Qed.

Example MD5_two_blocks :
  Sprintf_x (vec_to_list (MD5.Sum (list_byte_of_string
    "12345678901234567890123456789012345678901234567890123456789012345678901234567890")))
  = "57edf4a22be3c955ac49da2e2107b67a"%string.
Proof. by vm_compute. Qed.

Example hashIP_sample : hashIP MD5.Sum "10.0.0.7" = 9801680.
Proof. by vm_compute. Qed.

Example getClientIP_forwarded :
  getClientIP TrimSpace_ascii SplitHostPort_plain forwardedRequest = "10.0.0.7"%string.
Proof. reflexivity. Qed.

Example getClientIP_peer :
  getClientIP TrimSpace_ascii SplitHostPort_plain anyRequest = "10.0.0.7"%string.
Proof. reflexivity. Qed.

(** With backend [1] down the same client moves from backend [2] to
    backend [0]: the index is taken in the alive slice. *)
Example ipHash_select_samples :
  (ipHash_select ih3 (heap3 (fun _ => true)) anyRequest).1.1 = Ret (Some 2%nat) /\
  (ipHash_select ih3 (heap3 (fun p => bool_decide (p <> 1%nat))) anyRequest).1.1
    = Ret (Some 0%nat) /\
  (ipHash_select ih3 (heap3 (fun _ => false)) anyRequest).1.1 = Ret None.
Proof. by vm_compute. Qed.

Lemma C5_ip_hash_deterministic_witness :
  let '(r1, ihb1, h1) :=
    IPHash_SelectBackend MD5.Sum TrimSpace_ascii SplitHostPort_plain
      ih3 (heap3 (fun _ => true)) forwardedRequest in
  let '(r2, _, _) :=
    IPHash_SelectBackend MD5.Sum TrimSpace_ascii SplitHostPort_plain ihb1 h1 anyRequest in
  r1 = r2.
Proof.
  assert (getClientIP TrimSpace_ascii SplitHostPort_plain forwardedRequest =
          getClientIP TrimSpace_ascii SplitHostPort_plain anyRequest) as Hip.
  { vm_compute. reflexivity. }
  pose proof (C5_ip_hash_deterministic MD5.Sum TrimSpace_ascii SplitHostPort_plain
                ih3 (heap3 (fun _ => true)) forwardedRequest anyRequest Hip) as [H _].
  exact H.
Defined.

(** Three fresh backends under least-connections: the first three
    selections, with no completion, go to three different backends. *)
Example LeastConnections_run_fresh :
  (run [anyRequest; anyRequest; anyRequest] lc3 (heap3 (fun _ => true))).1.1
  = [Ret (Some 0%nat); Ret (Some 1%nat); Ret (Some 2%nat)].
Proof. by vm_compute. Qed.

(** A failed probe of an alive backend marks it dead and is logged as a
    change; failing again changes nothing more. *)
Example probe_backend_marks_down :
  let '(h1, logged1) := probe_backend rr3 (heap3 (fun _ => true)) 1%nat DoError in
  let '(h2, logged2) := probe_backend rr3 h1 1%nat (Response 503) in
  Alive (h1 1%nat) = false /\ logged1 = true /\
  Alive (h2 1%nat) = false /\ logged2 = false /\ ErrorCount (h2 1%nat) = 2 /\
  (SelectBackend rr3 h2 anyRequest).1.1 = Ret (Some 2%nat).
Proof. by vm_compute. Qed.

(** * Further properties of the registry, the health checker, the proxy
      and the start-up code *)

(** ** Registry: removal and status update go by URL *)

Lemma first_with_URL_cons h b backends u pre p post :
  URL (h b) <> u ->
  first_with_URL h backends u pre p post ->
  first_with_URL h (b :: backends) u (b :: pre) p post.
Proof.
  intros Hb (-> & Hp & Hpre). split; [done|]. split; [done|]. by constructor.
Qed.

Lemma remove_first_spec h backends backend :
  removes_first_match h backends backend (remove_first h backends backend).
Proof.
  unfold removes_first_match.
  induction backends as [|b backends IH]; simpl.
  { left. split; [constructor|done]. }
  destruct (decide (URL (h b) = URL (h backend))) as [Heq|Hne].
  - right. exists [], b, backends. split; [|done].
    split; [done|]. split; [done|constructor].
  - destruct IH as [[Hno ->]|(pre & p & post & Hfirst & ->)].
    + left. split; [by constructor|done].
    + right. exists (b :: pre), p, post. split; [|done].
      by apply first_with_URL_cons.
Qed.

Lemma update_first_spec h backends backend alive :
  updates_first_match h backends backend alive (update_first h backends backend alive).
Proof.
  unfold updates_first_match.
  induction backends as [|b backends IH]; simpl.
  { left. split; [constructor|done]. }
  destruct (decide (URL (h b) = URL (h backend))) as [Heq|Hne].
  - right. exists [], b, backends. split.
    { split; [done|]. split; [done|constructor]. }
    split; [apply store_eq|]. intros q Hq. by apply store_ne.
  - destruct IH as [[Hno Hsame]|(pre & p & post & Hfirst & Hp & Hother)].
    + left. split; [by constructor|done].
    + right. exists (b :: pre), p, post. split; [|done].
      by apply first_with_URL_cons.
Qed.

(** X1. [RemoveBackend], for each strategy, removes the first registry
    entry whose URL equals that of the given backend (which need not be
    the given pointer) and keeps the others in order; when no entry has
    that URL the registry is unchanged. Duplicates of the URL further
    down stay registered, and the round-robin cursor is not reset. *)
Theorem X1_RemoveBackend_first_match h backend :
  (forall rb : RoundRobinBalancer,
     removes_first_match h (GetBackends rb) backend
       (GetBackends (RemoveBackend rb h backend)) /\
     rr_current (RemoveBackend rb h backend) = rr_current rb) /\
  (forall lcb : LeastConnectionsBalancer,
     removes_first_match h (GetBackends lcb) backend
       (GetBackends (RemoveBackend lcb h backend))) /\
  (forall md5_Sum strings_TrimSpace net_SplitHostPort (ihb : IPHashBalancer),
     let IH := IPHash_LoadBalancer md5_Sum strings_TrimSpace net_SplitHostPort in
     removes_first_match h (@GetBackends _ IH ihb) backend
       (@GetBackends _ IH (@RemoveBackend _ IH ihb h backend))).
Proof.
  split; [|split].
  - intros rb. split; [apply remove_first_spec|done].
  - intros lcb. apply remove_first_spec.
  - intros. apply remove_first_spec.
Qed.

Lemma remove_first_snoc_fresh h backends backend :
  no_URL h backends (URL (h backend)) ->
  remove_first h (backends ++ [backend]) backend = backends.
Proof.
  intros Hno. unfold no_URL in Hno.
  induction Hno as [|b backends Hb Hno IH]; simpl.
  - by rewrite decide_True.
  - rewrite decide_False by done. by rewrite IH.
Qed.

(** X2. Adding a backend whose URL is not yet registered and then removing
    it gives back the balancer as it was, for each strategy. *)
Theorem X2_add_then_remove h backend :
  (forall rb : RoundRobinBalancer, no_URL h (GetBackends rb) (URL (h backend)) ->
     RemoveBackend (AddBackend rb backend) h backend = rb) /\
  (forall lcb : LeastConnectionsBalancer, no_URL h (GetBackends lcb) (URL (h backend)) ->
     RemoveBackend (AddBackend lcb backend) h backend = lcb) /\
  (forall md5_Sum strings_TrimSpace net_SplitHostPort (ihb : IPHashBalancer),
     let IH := IPHash_LoadBalancer md5_Sum strings_TrimSpace net_SplitHostPort in
     no_URL h (@GetBackends _ IH ihb) (URL (h backend)) ->
     @RemoveBackend _ IH (@AddBackend _ IH ihb backend) h backend = ihb).
Proof.
  split; [|split].
  - intros [bs c] Hno. cbn in *. by rewrite remove_first_snoc_fresh.
  - intros [bs] Hno. cbn in *. by rewrite remove_first_snoc_fresh.
  - intros md5_Sum strings_TrimSpace net_SplitHostPort [bs] IH Hno. cbn in *.
    by rewrite remove_first_snoc_fresh.
Qed.

(** When the URL is already registered, the entry that goes is the older
    one: the new pointer stays in the registry. *)
Example add_then_remove_duplicate_URL :
  let h : Heap := fun _ => mkBackend "http://localhost:3001" true 0 0 0 in
  GetBackends (RemoveBackend (AddBackend (AddBackend NewRoundRobinBalancer 0%nat) 1%nat)
                 h 1%nat) = [1%nat].
Proof. reflexivity. Qed.

(** X3. [UpdateBackendStatus], for each strategy, writes the given
    liveness into the first registry entry whose URL equals that of the
    given backend and changes nothing else in the heap: no counter, no
    other backend, not even a later entry with the same URL. With no such
    entry the heap is unchanged. *)
Theorem X3_UpdateBackendStatus_first_match h backend alive :
  (forall rb : RoundRobinBalancer,
     updates_first_match h (GetBackends rb) backend alive
       (UpdateBackendStatus rb h backend alive)) /\
  (forall lcb : LeastConnectionsBalancer,
     updates_first_match h (GetBackends lcb) backend alive
       (UpdateBackendStatus lcb h backend alive)) /\
  (forall md5_Sum strings_TrimSpace net_SplitHostPort (ihb : IPHashBalancer),
     let IH := IPHash_LoadBalancer md5_Sum strings_TrimSpace net_SplitHostPort in
     updates_first_match h (@GetBackends _ IH ihb) backend alive
       (@UpdateBackendStatus _ IH ihb h backend alive)).
Proof.
  split; [|split]; intros; apply update_first_spec.
Qed.

Lemma update_first_at h backends u pre p post backend alive :
  first_with_URL h backends u pre p post -> u = URL (h backend) ->
  update_first h backends backend alive = store h p (set_Alive alive (h p)).
Proof.
  intros (-> & Hp & Hpre) ->. unfold no_URL in Hpre.
  induction Hpre as [|b pre Hb Hpre IH]; simpl.
  - by rewrite decide_True.
  - by rewrite decide_False.
Qed.

(** ** A backend marked down is not selected *)

(** X4. After [UpdateBackendStatus(backend, false)] the first registry
    entry with that URL is returned by no strategy; after
    [UpdateBackendStatus(backend, true)], when such an entry exists,
    round-robin and least-connections return some backend. *)
Theorem X4_status_update_then_select h backends backend pre p post request :
  first_with_URL h backends (URL (h backend)) pre p post ->
  (forall rb : RoundRobinBalancer, GetBackends rb = backends ->
     (SelectBackend rb (UpdateBackendStatus rb h backend false) request).1.1
       <> Ret (Some p) /\
     exists q, (SelectBackend rb (UpdateBackendStatus rb h backend true) request).1.1
       = Ret (Some q)) /\
  (forall lcb : LeastConnectionsBalancer, GetBackends lcb = backends ->
     (SelectBackend lcb (UpdateBackendStatus lcb h backend false) request).1.1
       <> Ret (Some p) /\
     exists q, (SelectBackend lcb (UpdateBackendStatus lcb h backend true) request).1.1
       = Ret (Some q)) /\
  (forall md5_Sum strings_TrimSpace net_SplitHostPort (ihb : IPHashBalancer),
     ih_backends ihb = backends ->
     (IPHash_SelectBackend md5_Sum strings_TrimSpace net_SplitHostPort ihb
        (update_first h backends backend false) request).1.1 <> Ret (Some p)).
Proof.
  intros Hfirst.
  assert (Alive (update_first h backends backend false p) = false) as Hdown.
  { rewrite (update_first_at _ _ _ _ _ _ _ _ Hfirst eq_refl). by rewrite store_eq. }
  assert (length (aliveBackends (update_first h backends backend true) backends) <> 0%nat)
    as Hup.
  { assert (p ∈ aliveBackends (update_first h backends backend true) backends) as Hp.
    { apply aliveBackends_elem. split.
      - destruct Hfirst as (-> & _). set_solver.
      - rewrite (update_first_at _ _ _ _ _ _ _ _ Hfirst eq_refl). by rewrite store_eq. }
    intros Hlen. apply length_zero_iff_nil in Hlen. rewrite Hlen in Hp.
    by apply not_elem_of_nil in Hp. }
  split; [|split].
  - intros rb Hrb. cbn in *. subst backends. split.
    + intros Hsel.
      destruct (RoundRobin_select_sound rb
                  (update_first h (rr_backends rb) backend false) request) as [[Hs _] _].
      destruct (Hs p Hsel) as [_ Halive]. congruence.
    + destruct (RoundRobin_select_some rb
                  (update_first h (rr_backends rb) backend true) request Hup)
        as (q & _ & ->). by exists q.
  - intros lcb Hlcb. cbn in *. subst backends. split.
    + intros Hsel.
      destruct (LeastConnections_select_sound lcb
                  (update_first h (lc_backends lcb) backend false) request) as [[Hs _] _].
      destruct (Hs p Hsel) as [_ Halive]. congruence.
    + destruct (LeastConnections_select_some lcb
                  (update_first h (lc_backends lcb) backend true) request Hup)
        as (q & _ & _ & _ & ->). by exists q.
  - intros md5_Sum strings_TrimSpace net_SplitHostPort ihb Hihb Hsel. subst backends.
    destruct (IPHash_select_sound md5_Sum strings_TrimSpace net_SplitHostPort ihb
                (update_first h (ih_backends ihb) backend false) request) as [[Hs _] _].
    destruct (Hs p Hsel) as [_ Halive]. congruence.
Qed.

Lemma X4_status_update_then_select_witness :
  (SelectBackend rr3 (UpdateBackendStatus rr3 (heap3 (fun _ => true)) 1%nat false)
     anyRequest).1.1 <> Ret (Some 1%nat).
Proof.
  assert (first_with_URL (heap3 (fun _ => true)) [0; 1; 2]%nat
            (URL (heap3 (fun _ => true) 1%nat)) [0%nat] 1%nat [2%nat]) as Hfirst.
  { split; [reflexivity|]. split; [reflexivity|].
    constructor; [vm_compute; discriminate|constructor]. }
  exact (proj1 (proj1 (X4_status_update_then_select (heap3 (fun _ => true)) [0; 1; 2]%nat
                         1%nat [0%nat] 1%nat [2%nat] anyRequest Hfirst) rr3 eq_refl)).
Defined.

(** ** Health probes *)

Lemma CheckHealth_healthy h b probe : (CheckHealth h b probe).1 = probe_healthy probe.
Proof.
  destruct probe as [| |code]; simpl; try done.
  destruct ((200 <=? code) && (code <? 300)) eqn:Hcode; simpl; symmetry.
  - apply bool_decide_eq_true. lia.
  - apply bool_decide_eq_false. lia.
Qed.

(** [CheckHealth] touches the counters of the probed backend only. *)
Lemma CheckHealth_frame h b probe q :
  URL ((CheckHealth h b probe).2 q) = URL (h q) /\
  Alive ((CheckHealth h b probe).2 q) = Alive (h q) /\
  Connections ((CheckHealth h b probe).2 q) = Connections (h q) /\
  (q <> b -> (CheckHealth h b probe).2 q = h q).
Proof.
  destruct probe as [| |code]; simpl.
  - done.
  - pose proof (AddInt32_ErrorCount_spec h b q). simpl in *. tauto.
  - destruct ((200 <=? code) && (code <? 300)); simpl.
    + pose proof (AddInt32_SuccessCount_spec h b q). simpl in *. tauto.
    + pose proof (AddInt32_ErrorCount_spec h b q). simpl in *. tauto.
Qed.

Lemma first_with_URL_ext h h' backends u pre p post :
  (forall q, URL (h' q) = URL (h q)) ->
  first_with_URL h backends u pre p post -> first_with_URL h' backends u pre p post.
Proof.
  intros Hurl (-> & Hp & Hpre). split; [done|]. split; [by rewrite Hurl|].
  unfold no_URL in *. eapply Forall_impl; [exact Hpre|]. intros q Hq. by rewrite Hurl.
Qed.

(** What one probing goroutine does to a backend that is the first entry
    with its URL. *)
Lemma probe_backend_first {B} `{LoadBalancer B} (balancer : B) h pre b post probe :
  updates_by_URL balancer ->
  first_with_URL h (GetBackends balancer) (URL (h b)) pre b post ->
  let '(h1, logged) := probe_backend balancer h b probe in
  Alive (h1 b) = probe_healthy probe /\
  logged = xorb (Alive (h b)) (probe_healthy probe) /\
  (forall q, URL (h1 q) = URL (h q)) /\
  (forall q, q <> b -> h1 q = h q).
Proof.
  intros Hupd Hfirst. unfold probe_backend.
  pose proof (CheckHealth_healthy h b probe) as Hhealthy.
  pose proof (CheckHealth_frame h b probe) as Hframe.
  destruct (CheckHealth h b probe) as [alive hc]. simpl in *. subst alive.
  rewrite Hupd.
  assert (first_with_URL hc (GetBackends balancer) (URL (hc b)) pre b post) as Hfirst'.
  { destruct (Hframe b) as (Hurl & _). rewrite Hurl.
    apply (first_with_URL_ext h); [|done]. intros q. by destruct (Hframe q). }
  rewrite (update_first_at _ _ _ _ _ _ _ _ Hfirst' eq_refl).
  split; [by rewrite store_eq|]. split.
  { destruct (Hframe b) as (_ & -> & _).
    by destruct (Alive (h b)), (probe_healthy probe). }
  split.
  - intros q. destruct (Hframe q) as (Hq & _). unfold store.
    by destruct (decide (q = b)) as [->|].
  - intros q Hq. rewrite store_ne by done. by apply Hframe.
Qed.

Lemma three_strategies_update_by_URL :
  (forall rb : RoundRobinBalancer, updates_by_URL rb) /\
  (forall lcb : LeastConnectionsBalancer, updates_by_URL lcb) /\
  (forall md5_Sum strings_TrimSpace net_SplitHostPort (ihb : IPHashBalancer),
     @updates_by_URL _ (IPHash_LoadBalancer md5_Sum strings_TrimSpace net_SplitHostPort) ihb).
Proof. by repeat split. Qed.

(** X5. Two probes in a row of a backend that is the first registry entry
    with its URL: after each probe its liveness is the probe's
    classification, the first probe logs a status change exactly when the
    classification differs from the liveness before, and the second
    exactly when the two classifications differ; so repeated failures
    flip and log once. No other backend changes. *)
Theorem X5_probe_flips_once {B} `{LoadBalancer B} (balancer : B) h pre b post
    probe1 probe2 :
  updates_by_URL balancer ->
  first_with_URL h (GetBackends balancer) (URL (h b)) pre b post ->
  let '(h1, logged1) := probe_backend balancer h b probe1 in
  let '(h2, logged2) := probe_backend balancer h1 b probe2 in
  Alive (h1 b) = probe_healthy probe1 /\
  logged1 = xorb (Alive (h b)) (probe_healthy probe1) /\
  Alive (h2 b) = probe_healthy probe2 /\
  logged2 = xorb (probe_healthy probe1) (probe_healthy probe2) /\
  (forall q, q <> b -> h2 q = h q).
Proof.
  intros Hupd Hfirst.
  pose proof (probe_backend_first balancer h pre b post probe1 Hupd Hfirst) as H1.
  destruct (probe_backend balancer h b probe1) as [h1 logged1].
  destruct H1 as (Halive1 & Hlog1 & Hurl1 & Hother1).
  assert (first_with_URL h1 (GetBackends balancer) (URL (h1 b)) pre b post) as Hfirst1.
  { rewrite Hurl1. by apply (first_with_URL_ext h). }
  pose proof (probe_backend_first balancer h1 pre b post probe2 Hupd Hfirst1) as H2.
  destruct (probe_backend balancer h1 b probe2) as [h2 logged2].
  destruct H2 as (Halive2 & Hlog2 & Hurl2 & Hother2).
  repeat split; try done.
  - by rewrite Hlog2, Halive1.
  - intros q Hq. rewrite Hother2 by done. by apply Hother1.
Qed.

Lemma X5_probe_flips_once_witness :
  let '(h1, logged1) := probe_backend rr3 (heap3 (fun _ => true)) 1%nat DoError in
  let '(h2, logged2) := probe_backend rr3 h1 1%nat (Response 500) in
  Alive (h1 1%nat) = false /\ logged1 = true /\ Alive (h2 1%nat) = false /\ logged2 = false.
Proof.
  assert (first_with_URL (heap3 (fun _ => true)) (GetBackends rr3)
            (URL (heap3 (fun _ => true) 1%nat)) [0%nat] 1%nat [2%nat]) as Hfirst.
  { split; [reflexivity|]. split; [reflexivity|].
    constructor; [vm_compute; discriminate|constructor]. }
  pose proof (X5_probe_flips_once rr3 (heap3 (fun _ => true)) [0%nat] 1%nat [2%nat]
                DoError (Response 500) (proj1 three_strategies_update_by_URL rr3) Hfirst)
    as Hx.
  destruct (probe_backend rr3 (heap3 (fun _ => true)) 1%nat DoError) as [h1 logged1].
  destruct (probe_backend rr3 h1 1%nat (Response 500)) as [h2 logged2].
  destruct Hx as (H1 & H2 & H3 & H4 & _). repeat split; assumption.
Defined.

Lemma distinct_URLs_first h backends b :
  distinct_URLs h backends -> b ∈ backends ->
  exists pre post, first_with_URL h backends (URL (h b)) pre b post.
Proof.
  intros Hdistinct Hb. apply list_elem_of_split in Hb as (pre & post & ->).
  exists pre, post. split; [done|]. split; [done|].
  unfold distinct_URLs in Hdistinct. rewrite fmap_app in Hdistinct.
  apply NoDup_app in Hdistinct as (_ & Hdisjoint & _).
  unfold no_URL. apply Forall_forall. intros q Hq Heq.
  apply (Hdisjoint (URL (h q))).
  - by apply (list_elem_of_fmap_2 (fun p => URL (h p))).
  - rewrite Heq. simpl. left.
Qed.

Lemma distinct_URLs_ext h h' backends :
  (forall q, URL (h' q) = URL (h q)) ->
  distinct_URLs h backends -> distinct_URLs h' backends.
Proof.
  intros Hurl. unfold distinct_URLs.
  by rewrite (list_fmap_ext (fun p => URL (h' p)) (fun p => URL (h p)) backends).
Qed.

Lemma distinct_URLs_NoDup h backends : distinct_URLs h backends -> NoDup backends.
Proof. apply NoDup_fmap_1. Qed.

Lemma probe_round_spec {B} `{LoadBalancer B} (balancer : B) outcome order :
  updates_by_URL balancer ->
  forall h,
    distinct_URLs h (GetBackends balancer) ->
    NoDup order -> order ⊆ GetBackends balancer ->
    (forall b, b ∈ order ->
       Alive (probe_round balancer h order outcome b) = probe_healthy (outcome b)) /\
    (forall q, q ∉ order -> probe_round balancer h order outcome q = h q).
Proof.
  intros Hupd. induction order as [|b order IH]; intros h Hdistinct Hnodup Hsub.
  { split; [intros b Hb; by apply elem_of_nil in Hb|done]. }
  apply NoDup_cons in Hnodup as [Hb Hnodup]. cbn [probe_round].
  destruct (distinct_URLs_first h (GetBackends balancer) b Hdistinct) as (pre & post & Hfirst).
  { apply Hsub. left. }
  pose proof (probe_backend_first balancer h pre b post (outcome b) Hupd Hfirst) as Hprobe.
  destruct (probe_backend balancer h b (outcome b)) as [h1 logged].
  destruct Hprobe as (Halive & _ & Hurl & Hother). cbn [fst].
  destruct (IH h1) as [IHin IHout].
  { by apply (distinct_URLs_ext h). }
  { done. }
  { intros q Hq. apply Hsub. by right. }
  split.
  - intros q Hq. apply elem_of_cons in Hq as [->|Hq].
    + by rewrite IHout.
    + by apply IHin.
  - intros q Hq. apply not_elem_of_cons in Hq as [Hne Hq].
    rewrite IHout by done. by apply Hother.
Qed.

(** X6. One round of health checks over a registry with pairwise
    different URLs, the probing goroutines running one after the other in
    any order: afterwards every registered backend's liveness is the
    classification of its own probe, the alive slice is the sub-list of
    the registry whose probes passed, and backends outside the registry
    are untouched. *)
Theorem X6_probe_round_any_order {B} `{LoadBalancer B} (balancer : B) h order outcome :
  updates_by_URL balancer ->
  distinct_URLs h (GetBackends balancer) ->
  order ≡ₚ GetBackends balancer ->
  let h' := probe_round balancer h order outcome in
  (forall b, b ∈ GetBackends balancer -> Alive (h' b) = probe_healthy (outcome b)) /\
  aliveBackends h' (GetBackends balancer) =
    List.filter (fun b => probe_healthy (outcome b)) (GetBackends balancer) /\
  (forall q, q ∉ GetBackends balancer -> h' q = h q).
Proof.
  intros Hupd Hdistinct Hperm. simpl.
  destruct (probe_round_spec balancer outcome order Hupd h Hdistinct) as [Hin Hout].
  { rewrite Hperm. by eapply distinct_URLs_NoDup. }
  { intros q Hq. by rewrite <- Hperm. }
  assert (forall b, b ∈ GetBackends balancer ->
            Alive (probe_round balancer h order outcome b) = probe_healthy (outcome b))
    as Halive.
  { intros b Hb. apply Hin. by rewrite Hperm. }
  split; [done|]. split.
  - unfold aliveBackends. apply filter_ext_in. intros b Hb.
    apply Halive. by apply list_elem_of_In.
  - intros q Hq. apply Hout. by rewrite Hperm.
Qed.

Lemma X6_probe_round_any_order_witness :
  aliveBackends
    (probe_round rr3 (heap3 (fun _ => true)) [2; 0; 1]%nat
       (fun b => if decide (b = 1%nat) then DoError else Response 200))
    (GetBackends rr3) = [0; 2]%nat.
Proof.
  pose proof (X6_probe_round_any_order rr3 (heap3 (fun _ => true)) [2; 0; 1]%nat
                (fun b => if decide (b = 1%nat) then DoError else Response 200)
                (proj1 three_strategies_update_by_URL rr3)) as Hx.
  destruct Hx as (_ & Hx & _).
  - unfold distinct_URLs. vm_compute.
    repeat (constructor; [intros Hin;
      repeat (apply elem_of_cons in Hin as [Hin|Hin]; [discriminate|]);
      by apply elem_of_nil in Hin|]).
    constructor.
  - change (GetBackends rr3) with [0; 1; 2]%nat.
    transitivity [0; 2; 1]%nat; [apply perm_swap|apply perm_skip, perm_swap].
  - exact Hx.
Defined.

(** ** Least-connections keeps the load even *)

(** A selection among non-negative counts below the [int32] maximum: the
    backend returned is the first least-loaded alive one and its count
    goes up by one. *)
Lemma LeastConnections_select_first_least lcb h request bound :
  aliveBackends h (lc_backends lcb) <> [] ->
  alive_counts_within h (lc_backends lcb) bound -> bound < int32_max ->
  exists p,
    LeastConnections_SelectBackend lcb h request =
      (Ret (Some p), lcb, AddInt32_Connections h p 1) /\
    first_least_loaded h (lc_backends lcb) p /\ p ∈ lc_backends lcb /\
    Connections (AddInt32_Connections h p 1 p) = Connections (h p) + 1.
Proof.
  intros Halive Hcounts Hbound.
  assert (length (aliveBackends h (lc_backends lcb)) <> 0%nat) as Hk.
  { by rewrite length_zero_iff_nil. }
  destruct (LeastConnections_select_some lcb h request Hk) as (p & Hscan & Hin & Hp & ->).
  exists p. split; [done|]. split; [|split; [done|]].
  - destruct (LeastConnections_scan h (lc_backends lcb)) as [selected minConnections] eqn:Hs.
    simpl in Hscan. subst selected.
    eapply LeastConnections_scan_first_least; [|exact Hs].
    intros q Hq Hqalive. destruct (Hcounts q Hq Hqalive). lia.
  - rewrite AddInt32_Connections_eq. apply wrap_int32_id.
    destruct (Hcounts p Hin Hp). unfold int32_range, int32_min, int32_max in *. lia.
Qed.

Lemma first_least_loaded_min h backends p q :
  first_least_loaded h backends p -> q ∈ backends -> Alive (h q) = true ->
  Connections (h p) <= Connections (h q).
Proof.
  intros (i & _ & _ & Hleast) Hq Hqalive.
  apply list_elem_of_lookup in Hq as [j Hj]. by destruct (Hleast j q Hj Hqalive).
Qed.

(** X7. Least-connections, counts non-negative and below the [int32]
    maximum: when two different alive registered backends both have the
    minimum count, two selections in a row with no completion in between
    return two different backends, each of which had that minimum count. *)
Theorem X7_least_connections_two_selections lcb h request1 request2 q1 q2 bound :
  alive_counts_within h (lc_backends lcb) bound -> bound + 1 < int32_max ->
  q1 ∈ lc_backends lcb -> q2 ∈ lc_backends lcb -> q1 <> q2 ->
  Alive (h q1) = true -> Alive (h q2) = true ->
  Connections (h q1) = Connections (h q2) ->
  (forall q, q ∈ lc_backends lcb -> Alive (h q) = true ->
     Connections (h q1) <= Connections (h q)) ->
  let '(r1, lcb1, h1) := SelectBackend lcb h request1 in
  let '(r2, _, _) := SelectBackend lcb1 h1 request2 in
  exists p1 p2,
    r1 = Ret (Some p1) /\ r2 = Ret (Some p2) /\ p1 <> p2 /\
    Connections (h p1) = Connections (h q1) /\
    Connections (h p2) = Connections (h q1).
Proof.
  intros Hcounts Hbound Hq1 Hq2 Hne Ha1 Ha2 Heq Hmin. cbn [SelectBackend LeastConnections_LoadBalancer].
  assert (aliveBackends h (lc_backends lcb) <> []) as Halive.
  { intros Hnil. assert (q1 ∈ aliveBackends h (lc_backends lcb)) as Hmem
      by by apply aliveBackends_elem.
    rewrite Hnil in Hmem. by apply not_elem_of_nil in Hmem. }
  destruct (LeastConnections_select_first_least lcb h request1 bound Halive Hcounts
              ltac:(lia)) as (p1 & -> & Hleast1 & Hin1 & Hinc).
  set (h1 := AddInt32_Connections h p1 1) in *.
  assert (Alive (h p1) = true) as Hp1 by by destruct Hleast1 as (i & _ & Hp & _).
  assert (Connections (h p1) = Connections (h q1)) as Hp1min.
  { pose proof (first_least_loaded_min h _ p1 q1 Hleast1 Hq1 Ha1).
    pose proof (Hmin p1 Hin1 Hp1). lia. }
  assert (forall q, Alive (h1 q) = Alive (h q)) as Hsame.
  { intros q. apply AddInt32_Connections_Alive. }
  assert (forall q, q <> p1 -> Connections (h1 q) = Connections (h q)) as Hother.
  { intros q Hq. unfold h1. by rewrite AddInt32_Connections_ne. }
  assert (alive_counts_within h1 (lc_backends lcb) (bound + 1)) as Hcounts1.
  { intros q Hq Hqalive. rewrite Hsame in Hqalive.
    destruct (Hcounts q Hq Hqalive). destruct (decide (q = p1)) as [->|Hqne].
    - rewrite Hinc. lia.
    - rewrite Hother by done. lia. }
  assert (aliveBackends h1 (lc_backends lcb) <> []) as Halive1.
  { by rewrite (aliveBackends_ext h h1). }
  destruct (LeastConnections_select_first_least lcb h1 request2 (bound + 1) Halive1 Hcounts1
              Hbound) as (p2 & -> & Hleast2 & Hin2 & _).
  assert (Alive (h p2) = true) as Hp2.
  { destruct Hleast2 as (i & _ & Hp & _). by rewrite Hsame in Hp. }
  (* one of q1, q2 is not p1 and still has the minimum count *)
  assert (exists q, q ∈ lc_backends lcb /\ Alive (h1 q) = true /\ q <> p1 /\
                    Connections (h1 q) = Connections (h q1)) as (q & Hq & Hqalive & Hqne & Hqc).
  { destruct (decide (q1 = p1)) as [->|Hq1ne].
    - exists q2. rewrite Hsame, Hother by done. done.
    - exists q1. rewrite Hsame, Hother by done. done. }
  pose proof (first_least_loaded_min h1 _ p2 q Hleast2 Hq Hqalive) as Hle.
  assert (p1 <> p2) as Hdiff.
  { intros <-. rewrite Hinc in Hle. lia. }
  exists p1, p2. repeat split; try done.
  rewrite Hother in Hle by done. pose proof (Hmin p2 Hin2 Hp2). lia.
Qed.

Lemma X7_least_connections_two_selections_witness :
  let '(r1, lcb1, h1) := SelectBackend lc3 heapBusy anyRequest in
  let '(r2, _, _) := SelectBackend lcb1 h1 anyRequest in
  exists p1 p2, r1 = Ret (Some p1) /\ r2 = Ret (Some p2) /\ p1 <> p2 /\
    Connections (heapBusy p1) = 1 /\ Connections (heapBusy p2) = 1.
Proof.
  apply (X7_least_connections_two_selections lc3 heapBusy anyRequest anyRequest
           1%nat 2%nat 3).
  - intros q Hq _. simpl in Hq.
    repeat (apply elem_of_cons in Hq as [->|Hq]; [vm_compute; split; discriminate|]).
    by apply elem_of_nil in Hq.
  - vm_compute. reflexivity.
  - simpl. set_solver.
  - simpl. set_solver.
  - discriminate.
  - reflexivity.
  - reflexivity.
  - reflexivity.
  - intros q Hq _. simpl in Hq.
    repeat (apply elem_of_cons in Hq as [->|Hq]; [vm_compute; discriminate|]).
    by apply elem_of_nil in Hq.
Defined.

(** One selection does not widen the spread of the alive counts beyond
    [d >= 1]. *)
Lemma LeastConnections_select_spread lcb h request bound d :
  aliveBackends h (lc_backends lcb) <> [] ->
  alive_counts_within h (lc_backends lcb) bound -> bound < int32_max ->
  1 <= d -> spread_at_most h (lc_backends lcb) d ->
  exists p,
    LeastConnections_SelectBackend lcb h request =
      (Ret (Some p), lcb, AddInt32_Connections h p 1) /\
    alive_counts_within (AddInt32_Connections h p 1) (lc_backends lcb) (bound + 1) /\
    spread_at_most (AddInt32_Connections h p 1) (lc_backends lcb) d.
Proof.
  intros Halive Hcounts Hbound Hd Hspread.
  destruct (LeastConnections_select_first_least lcb h request bound Halive Hcounts Hbound)
    as (p & Hsel & Hleast & Hin & Hinc).
  exists p. split; [done|].
  set (h1 := AddInt32_Connections h p 1) in *.
  assert (forall q, Alive (h1 q) = Alive (h q)) as Hsame.
  { intros q. apply AddInt32_Connections_Alive. }
  assert (forall q, q <> p -> Connections (h1 q) = Connections (h q)) as Hother.
  { intros q Hq. unfold h1. by rewrite AddInt32_Connections_ne. }
  split.
  - intros q Hq Hqalive. rewrite Hsame in Hqalive.
    destruct (Hcounts q Hq Hqalive). destruct (decide (q = p)) as [->|Hqne].
    + rewrite Hinc. lia.
    + rewrite Hother by done. lia.
  - intros q1 q2 Hq1 Hq2 Ha1 Ha2. rewrite Hsame in Ha1, Ha2.
    pose proof (first_least_loaded_min h _ p q2 Hleast Hq2 Ha2).
    pose proof (Hspread q1 q2 Hq1 Hq2 Ha1 Ha2).
    assert (Alive (h p) = true) as Hp by by destruct Hleast as (i & _ & Hp & _).
    pose proof (Hspread q1 p Hq1 Hin Ha1 Hp).
    destruct (decide (q1 = p)) as [->|Hne1]; destruct (decide (q2 = p)) as [->|Hne2];
      rewrite ?Hinc, ?Hother by done; lia.
Qed.

(** X8. Least-connections, counts non-negative and far enough below the
    [int32] maximum, the selections being made one after the other (each
    call returns before the next one starts): if the counts of the alive
    registered backends differ by at most [d >= 1], they still differ by
    at most [d] after any number of such selections with no completion
    and no liveness change in between. From equal counts the load so
    stays within one request of even. *)
Theorem X8_least_connections_keeps_spread lcb requests :
  forall h bound d,
    aliveBackends h (lc_backends lcb) <> [] ->
    alive_counts_within h (lc_backends lcb) bound ->
    bound + Z.of_nat (length requests) <= int32_max ->
    1 <= d -> spread_at_most h (lc_backends lcb) d ->
    let '(_, _, h') := run requests lcb h in
    spread_at_most h' (lc_backends lcb) d /\
    alive_counts_within h' (lc_backends lcb) (bound + Z.of_nat (length requests)).
Proof.
  induction requests as [|request requests IH]; intros h bound d Halive Hcounts Hbound Hd Hspread.
  { simpl. split; [done|]. intros q Hq Hqalive. destruct (Hcounts q Hq Hqalive). lia. }
  cbn [run SelectBackend LeastConnections_LoadBalancer]. simpl length in Hbound.
  destruct (LeastConnections_select_spread lcb h request bound d Halive Hcounts
              ltac:(lia) Hd Hspread) as (p & -> & Hcounts1 & Hspread1).
  assert (aliveBackends (AddInt32_Connections h p 1) (lc_backends lcb) <> []) as Halive1.
  { rewrite (aliveBackends_ext h); [done|]. intros q. apply AddInt32_Connections_Alive. }
  specialize (IH (AddInt32_Connections h p 1) (bound + 1) d Halive1 Hcounts1
                ltac:(lia) Hd Hspread1).
  destruct (run requests lcb (AddInt32_Connections h p 1)) as [[rs lcb'] h'].
  destruct IH as [Hs Hc]. split; [done|].
  intros q Hq Hqalive. destruct (Hc q Hq Hqalive). simpl length. lia.
Qed.

Lemma X8_least_connections_keeps_spread_witness :
  let '(_, _, h') :=
    run [anyRequest; anyRequest; anyRequest; anyRequest] lc3 (heap3 (fun _ => true)) in
  spread_at_most h' (lc_backends lc3) 1 /\ alive_counts_within h' (lc_backends lc3) 4.
Proof.
  apply (X8_least_connections_keeps_spread lc3
           [anyRequest; anyRequest; anyRequest; anyRequest] (heap3 (fun _ => true)) 0 1).
  - vm_compute. discriminate.
  - intros q _ _. vm_compute. split; discriminate.
  - vm_compute. discriminate.
  - lia.
  - intros q1 q2 _ _ _ _. vm_compute. discriminate.
Defined.

(** ** Round-robin is fair over whole cycles *)

Lemma roundRobin_expected_app alive c a b :
  roundRobin_expected alive c (a + b) =
  roundRobin_expected alive c a ++ roundRobin_expected alive (c + Z.of_nat a) b.
Proof.
  unfold roundRobin_expected. rewrite seq_app, fmap_app. f_equal.
  change (0 + a)%nat with a. rewrite <- (Nat.add_0_r a) at 1.
  rewrite <- fmap_add_seq, <- list_fmap_compose. apply list_fmap_ext.
  intros _ i _. cbn [compose].
  by replace (c + 1 + Z.of_nat (a + i)) with (c + Z.of_nat a + 1 + Z.of_nat i) by lia.
Qed.

Lemma rotate_Permutation {A} (n : nat) (l : list A) : rotate n l ≡ₚ l.
Proof.
  unfold rotate. etransitivity; [apply Permutation_app_comm|].
  by rewrite take_drop.
Qed.

Lemma roundRobin_expected_cycles alive n :
  alive <> [] ->
  forall c,
    roundRobin_expected alive c (n * length alive) ≡ₚ
    mjoin (replicate n ((fun p => Ret (Some p)) <$> alive)).
Proof.
  intros Halive. induction n as [|n IH]; intros c; [done|].
  cbn [Nat.mul replicate]. rewrite roundRobin_expected_app.
  rewrite roundRobin_expected_rotate by done.
  cbn [mjoin list_join]. apply Permutation_app.
  - apply fmap_Permutation, rotate_Permutation.
  - apply IH.
Qed.

(** X9. Round-robin over a fixed alive slice of size [k >= 1], while the
    cursor stays below [2^64]: the results of [n * k] consecutive calls
    are a rearrangement of [n] copies of the alive slice, so every alive
    backend is returned exactly as often as it is registered, [n] times
    per entry. *)
Theorem X9_round_robin_fair rb h requests n :
  let alive := aliveBackends h (rr_backends rb) in
  alive <> [] ->
  length requests = (n * length alive)%nat ->
  0 <= rr_current rb ->
  rr_current rb + Z.of_nat (n * length alive) < uint64_modulus ->
  (run requests rb h).1.1 ≡ₚ mjoin (replicate n ((fun p => Ret (Some p)) <$> alive)).
Proof.
  intros alive Halive Hlen Hlo Hhi.
  rewrite RoundRobin_run_spec by (try done; rewrite Hlen; done).
  cbn [fst]. rewrite Hlen. by apply roundRobin_expected_cycles.
Qed.

Lemma X9_round_robin_fair_witness :
  (run [anyRequest; anyRequest; anyRequest; anyRequest; anyRequest; anyRequest]
     rr3 (heap3 (fun _ => true))).1.1
  ≡ₚ mjoin (replicate 2 ((fun p => Ret (Some p)) <$> [0; 1; 2]%nat)).
Proof.
  apply (X9_round_robin_fair rr3 (heap3 (fun _ => true))
           [anyRequest; anyRequest; anyRequest; anyRequest; anyRequest; anyRequest] 2).
  - vm_compute. discriminate.
  - reflexivity.
  - vm_compute. discriminate.
  - vm_compute. reflexivity.
Defined.

(** ** The dispatcher *)

Section DispatcherFacts.

Variable md5_Sum : list byte -> vec byte 16.
Variable strings_TrimSpace : string -> string.
Variable net_SplitHostPort : string -> option (string * string).

Local Abbreviation LB := (Balancer_LoadBalancer md5_Sum strings_TrimSpace net_SplitHostPort).
Local Abbreviation serve := (ServeHTTP md5_Sum strings_TrimSpace net_SplitHostPort).
Local Abbreviation health := (handleHealthCheck md5_Sum strings_TrimSpace net_SplitHostPort).

(** Selection through the interface is sound, whatever the strategy. *)
Lemma Balancer_select_sound lb h request :
  select_sound (@GetBackends _ LB lb) h (@SelectBackend _ LB lb h request).1.1.
Proof.
  destruct lb as [rb|lcb|ihb]; cbn.
  - pose proof (RoundRobin_select_sound rb h request) as [Hs _].
    by destruct (RoundRobin_SelectBackend rb h request) as [[r rb'] h'].
  - pose proof (LeastConnections_select_sound lcb h request) as [Hs _].
    by destruct (LeastConnections_SelectBackend lcb h request) as [[r lcb'] h'].
  - pose proof (IPHash_select_sound md5_Sum strings_TrimSpace net_SplitHostPort
                  ihb h request) as [Hs _].
    by destruct (IPHash_SelectBackend md5_Sum strings_TrimSpace net_SplitHostPort
                   ihb h request) as [[r ihb'] h'].
Qed.

Lemma Balancer_select_none lb h request :
  length (aliveBackends h (@GetBackends _ LB lb)) = 0%nat ->
  @SelectBackend _ LB lb h request = (Ret None, lb, h).
Proof.
  intros Hk. destruct lb as [rb|lcb|ihb]; cbn in *.
  - by rewrite RoundRobin_select_none.
  - by rewrite LeastConnections_select_none.
  - by rewrite IPHash_select_none.
Qed.

(** X10. Whatever the strategy, a request that arrives while no
    registered backend is alive is answered 503 and changes neither the
    heap nor the balancer: no counter moves and the round-robin cursor
    does not advance. *)
Theorem X10_ServeHTTP_unavailable lb h path request outcome :
  path <> "/health"%string ->
  length (aliveBackends h (@GetBackends _ LB lb)) = 0%nat ->
  serve lb h path request outcome = (Ret 503, lb, h).
Proof.
  intros Hpath Hk. unfold ServeHTTP. rewrite decide_False by done.
  by rewrite Balancer_select_none.
Qed.

Lemma handleHealthCheck_fold h backends healthyCount backendStatuses :
  fold_left (handleHealthCheck_step h) backends (healthyCount, backendStatuses) =
  (healthyCount + Z.of_nat (length (aliveBackends h backends)),
   backendStatuses ++
     ((fun backend =>
         mkBackendStatus (URL (h backend)) (Alive (h backend)) (Connections (h backend))
           (SuccessCount (h backend)) (ErrorCount (h backend))) <$> backends)).
Proof.
  revert healthyCount backendStatuses.
  induction backends as [|b backends IH]; intros healthyCount backendStatuses; simpl.
  { rewrite app_nil_r. f_equal. lia. }
  rewrite IH. rewrite <- app_assoc. simpl.
  destruct (Alive (h b)); simpl length; f_equal; lia.
Qed.

(** X11. The health endpoint reports as healthy the number of registered
    backends whose [Alive] flag is set, as total the size of the registry,
    and one status per registry entry in insertion order with the fields
    of that backend; it answers 200 with "healthy" when at least one
    backend is alive and 503 with "unhealthy" otherwise. A request for
    [/health] gets this answer and is never forwarded: no backend is
    selected and nothing changes. *)
Theorem X11_health_endpoint lb h request outcome :
  let backends := @GetBackends _ LB lb in
  let k := length (aliveBackends h backends) in
  let '(code, response) := health lb h in
  hr_HealthyBackends response = Z.of_nat k /\
  hr_TotalBackends response = Z.of_nat (length backends) /\
  0 <= hr_HealthyBackends response <= hr_TotalBackends response /\
  hr_Backends response =
    ((fun backend =>
        mkBackendStatus (URL (h backend)) (Alive (h backend)) (Connections (h backend))
          (SuccessCount (h backend)) (ErrorCount (h backend))) <$> backends) /\
  (code, hr_Status response) =
    (if decide (k = 0%nat) then (503, "unhealthy"%string) else (200, "healthy"%string)) /\
  serve lb h "/health" request outcome = (Ret code, lb, h).
Proof.
  cbv zeta. unfold ServeHTTP.
  destruct (decide ("/health"%string = "/health"%string)) as [_|Hne]; [|done].
  unfold handleHealthCheck. rewrite handleHealthCheck_fold.
  pose proof (aliveBackends_length_le h (@GetBackends _ LB lb)) as Hle.
  set (k := length (aliveBackends h (@GetBackends _ LB lb))) in *.
  cbn [hr_HealthyBackends hr_TotalBackends hr_Backends hr_Status fst app].
  replace (0 + Z.of_nat k) with (Z.of_nat k) by lia.
  repeat split; try done; try lia.
  destruct (decide (k = 0%nat)) as [->|Hk]; [done|].
  destruct (Z.eqb_spec (Z.of_nat k) 0); [lia|done].
Qed.

(** X12. The health endpoint and selection agree: [/health] answers 503
    exactly when [SelectBackend], with whatever strategy and request,
    returns none. *)
Theorem X12_health_agrees_with_selection lb h request :
  (handleHealthCheck md5_Sum strings_TrimSpace net_SplitHostPort lb h).1 = 503 <->
  (Balancer_SelectBackend md5_Sum strings_TrimSpace net_SplitHostPort lb h request).1.1
    = Ret None.
Proof.
  pose proof (Balancer_select_sound lb h request) as [_ Hnone].
  rewrite Hnone. unfold handleHealthCheck. rewrite handleHealthCheck_fold.
  set (k := length (aliveBackends h (@GetBackends _ LB lb))). cbn [fst].
  destruct (Z.eqb_spec (0 + Z.of_nat k) 0) as [Hz|Hz]; split; intros Hk.
  - lia.
  - done.
  - discriminate.
  - lia.
Qed.

(** The three ways a request that was sent ends, by counter. *)
Lemma release_LeastConnections_restores lcb h p q (touch : Heap -> Heap) :
  int32_range (Connections (h p)) ->
  (forall g r, Connections (touch g r) = Connections (g r)) ->
  Connections
    (release (OfLeastConnections lcb) (touch (AddInt32_Connections h p 1)) p q)
  = Connections (h q).
Proof.
  intros Hrange Htouch. unfold release, DecrementConnections.
  unfold AddInt32_Connections at 1. unfold store.
  destruct (decide (q = p)) as [->|Hne]; simpl.
  - rewrite Htouch, AddInt32_Connections_eq. by apply wrap_int32_succ_pred.
  - rewrite Htouch. by rewrite AddInt32_Connections_ne.
Qed.

(** X13. Least-connections behind the dispatcher, counts in [int32]: on
    every path on which the request was sent to the chosen backend (the
    round trip failed, the body copy failed, the response was relayed, or
    writing the status panicked) the connection count of every backend is
    afterwards what it was before the request: the slot taken by the
    selection is released exactly once. *)
Theorem X13_ServeHTTP_releases_slot lcb h path request outcome :
  (forall p, int32_range (Connections (h p))) ->
  outcome <> ProxyRequestError ->
  let '(_, lb', h') := serve (OfLeastConnections lcb) h path request outcome in
  lb' = OfLeastConnections lcb /\
  forall q, Connections (h' q) = Connections (h q) /\ Alive (h' q) = Alive (h q).
Proof.
  intros Hrange Hsent. unfold ServeHTTP.
  destruct (decide (path = "/health"%string)); [done|]. cbn.
  destruct (decide (length (aliveBackends h (lc_backends lcb)) = 0%nat)) as [Hk|Hk].
  { by rewrite LeastConnections_select_none. }
  destruct (LeastConnections_select_some lcb h request Hk) as (p & _ & _ & _ & ->).
  assert (forall touch : Heap -> Heap,
            (forall g r, Connections (touch g r) = Connections (g r)) ->
            (forall g r, Alive (touch g r) = Alive (g r)) ->
            forall q,
              Connections (release (OfLeastConnections lcb)
                             (touch (AddInt32_Connections h p 1)) p q) = Connections (h q) /\
              Alive (release (OfLeastConnections lcb)
                       (touch (AddInt32_Connections h p 1)) p q) = Alive (h q)) as Hrel.
  { intros touch Hc Ha q. split; [by apply release_LeastConnections_restores|].
    unfold release, DecrementConnections.
    by rewrite AddInt32_Connections_Alive, Ha, AddInt32_Connections_Alive. }
  assert (forall g r, Connections (AddInt32_ErrorCount g p 1 r) = Connections (g r) /\
                      Alive (AddInt32_ErrorCount g p 1 r) = Alive (g r)) as Herr.
  { intros g r. pose proof (AddInt32_ErrorCount_spec g p r). simpl in *. tauto. }
  assert (forall g r, Connections (AddInt32_SuccessCount g p 1 r) = Connections (g r) /\
                      Alive (AddInt32_SuccessCount g p 1 r) = Alive (g r)) as Hsucc.
  { intros g r. pose proof (AddInt32_SuccessCount_spec g p r). simpl in *. tauto. }
  destruct outcome as [| |code|code]; [done| | |].
  - split; [done|].
    apply (Hrel (fun g => AddInt32_ErrorCount g p 1)); intros g r; by destruct (Herr g r).
  - destruct ((code <? 100) || (999 <? code)); (split; [done|]).
    + by apply (Hrel (fun g => g)).
    + apply (Hrel (fun g => AddInt32_ErrorCount g p 1)); intros g r; by destruct (Herr g r).
  - destruct ((code <? 100) || (999 <? code)); (split; [done|]).
    + by apply (Hrel (fun g => g)).
    + apply (Hrel (fun g => AddInt32_SuccessCount g p 1)); intros g r;
        by destruct (Hsucc g r).
Qed.

(** X14. Least-connections behind the dispatcher: when the outgoing
    request cannot be built, [ServeHTTP] answers 500 and returns without
    releasing the slot: the connection count of the chosen backend stays
    one higher ([int32] addition) than before the request, and nothing
    else changes. *)
Theorem X14_ServeHTTP_unbuilt_request_keeps_slot lcb h path request p :
  path <> "/health"%string ->
  (LeastConnections_SelectBackend lcb h request).1.1 = Ret (Some p) ->
  let '(status, lb', h') :=
    serve (OfLeastConnections lcb) h path request ProxyRequestError in
  status = Ret 500 /\ lb' = OfLeastConnections lcb /\
  Connections (h' p) = wrap_int32 (Connections (h p) + 1) /\
  SuccessCount (h' p) = SuccessCount (h p) /\ ErrorCount (h' p) = ErrorCount (h p) /\
  forall q, q <> p -> h' q = h q.
Proof.
  intros Hpath Hsel. unfold ServeHTTP. rewrite decide_False by done. cbn.
  destruct (decide (length (aliveBackends h (lc_backends lcb)) = 0%nat)) as [Hk|Hk].
  { by rewrite LeastConnections_select_none in Hsel. }
  destruct (LeastConnections_select_some lcb h request Hk) as (p' & _ & _ & _ & Heq).
  rewrite Heq in Hsel |- *. simpl in Hsel. injection Hsel as ->.
  split; [done|]. split; [done|].
  split; [apply AddInt32_Connections_eq|].
  unfold AddInt32_Connections. rewrite store_eq. simpl.
  repeat split; try done. intros q Hq. by rewrite store_ne.
Qed.

(** X15. Behind the dispatcher a response that is relayed whole counts as
    a success of the chosen backend whatever its status (a relayed 500
    included), and a failed round trip or body copy counts as an error:
    exactly one of the two counters of the chosen backend goes up by one
    ([int32] addition), with any strategy. *)
Theorem X15_ServeHTTP_counts lb h path request outcome p :
  path <> "/health"%string ->
  (@SelectBackend _ LB lb h request).1.1 = Ret (Some p) ->
  let '(status, _, h') := serve lb h path request outcome in
  match outcome with
  | ProxyRequestError =>
      status = Ret 500 /\
      SuccessCount (h' p) = SuccessCount (h p) /\ ErrorCount (h' p) = ErrorCount (h p)
  | BackendError =>
      status = Ret 502 /\
      SuccessCount (h' p) = SuccessCount (h p) /\
      ErrorCount (h' p) = wrap_int32 (ErrorCount (h p) + 1)
  | CopyError StatusCode =>
      100 <= StatusCode <= 999 ->
      status = Ret StatusCode /\
      SuccessCount (h' p) = SuccessCount (h p) /\
      ErrorCount (h' p) = wrap_int32 (ErrorCount (h p) + 1)
  | Relayed StatusCode =>
      100 <= StatusCode <= 999 ->
      status = Ret StatusCode /\
      SuccessCount (h' p) = wrap_int32 (SuccessCount (h p) + 1) /\
      ErrorCount (h' p) = ErrorCount (h p)
  end.
Proof.
  intros Hpath Hsel. unfold ServeHTTP. rewrite decide_False by done.
  assert (exists lb1 h1,
            @SelectBackend _ LB lb h request = (Ret (Some p), lb1, h1) /\
            (forall q, SuccessCount (h1 q) = SuccessCount (h q) /\
                       ErrorCount (h1 q) = ErrorCount (h q)) /\
            (forall g q, SuccessCount (release lb1 g p q) = SuccessCount (g q) /\
                         ErrorCount (release lb1 g p q) = ErrorCount (g q)))
    as (lb1 & h1 & -> & Hh1 & Hrel).
  { assert (forall g q, SuccessCount (DecrementConnections g p q) = SuccessCount (g q) /\
                        ErrorCount (DecrementConnections g p q) = ErrorCount (g q)) as Hdec.
    { intros g q. unfold DecrementConnections, AddInt32_Connections, store.
      by destruct (decide (q = p)) as [->|]. }
    destruct lb as [rb|lcb|ihb]; cbn in *.
    - pose proof (RoundRobin_select_frame rb h request) as Hf.
      destruct (RoundRobin_SelectBackend rb h request) as [[r rb'] h'].
      destruct Hf as [-> _]. simpl in Hsel. subst r. by exists (OfRoundRobin rb'), h.
    - destruct (decide (length (aliveBackends h (lc_backends lcb)) = 0%nat)) as [Hk|Hk].
      { by rewrite LeastConnections_select_none in Hsel. }
      destruct (LeastConnections_select_some lcb h request Hk) as (p' & _ & _ & _ & Heq).
      rewrite Heq in Hsel |- *. simpl in Hsel. injection Hsel as ->.
      exists (OfLeastConnections lcb), (AddInt32_Connections h p 1).
      split; [done|]. split; [|done].
      intros q. unfold AddInt32_Connections, store. by destruct (decide (q = p)) as [->|].
    - pose proof (IPHash_select_frame md5_Sum strings_TrimSpace net_SplitHostPort
                    ihb h request) as Hf.
      destruct (IPHash_SelectBackend md5_Sum strings_TrimSpace net_SplitHostPort
                  ihb h request) as [[r ihb'] h'].
      destruct Hf as [-> _]. simpl in Hsel. subst r. by exists (OfIPHash ihb'), h. }
  destruct (Hh1 p) as [Hs1 He1].
  destruct outcome as [| |code|code].
  - done.
  - destruct (Hrel (AddInt32_ErrorCount h1 p 1) p) as [-> ->].
    pose proof (AddInt32_ErrorCount_spec h1 p p) as (-> & -> & _).
    by rewrite Hs1, He1.
  - destruct (Z.ltb_spec code 100); destruct (Z.ltb_spec 999 code);
      cbn [orb]; cbv iota beta; intros Hcode; try lia.
    destruct (Hrel (AddInt32_ErrorCount h1 p 1) p) as [-> ->].
    pose proof (AddInt32_ErrorCount_spec h1 p p) as (-> & -> & _).
    by rewrite Hs1, He1.
  - destruct (Z.ltb_spec code 100); destruct (Z.ltb_spec 999 code);
      cbn [orb]; cbv iota beta; intros Hcode; try lia.
    destruct (Hrel (AddInt32_SuccessCount h1 p 1) p) as [-> ->].
    pose proof (AddInt32_SuccessCount_spec h1 p p) as (-> & -> & _).
    by rewrite Hs1, He1.
Qed.

End DispatcherFacts.

Lemma X10_ServeHTTP_unavailable_witness :
  ServeHTTP MD5.Sum TrimSpace_ascii SplitHostPort_plain
    (OfRoundRobin rr3) (heap3 (fun _ => false)) "/index.html" anyRequest BackendError
  = (Ret 503, OfRoundRobin rr3, heap3 (fun _ => false)).
Proof.
  apply X10_ServeHTTP_unavailable; [discriminate|reflexivity].
Defined.

Lemma heapBusy_int32 p : int32_range (Connections (heapBusy p)).
Proof.
  do 3 (destruct p as [|p]; [vm_compute; split; discriminate|]).
  vm_compute; split; discriminate.
Qed.

Lemma X13_ServeHTTP_releases_slot_witness :
  let '(_, lb', h') :=
    ServeHTTP MD5.Sum TrimSpace_ascii SplitHostPort_plain
      (OfLeastConnections lc3) heapBusy "/api" anyRequest (Relayed 200) in
  lb' = OfLeastConnections lc3 /\ Connections (h' 1%nat) = 1.
Proof.
  pose proof (X13_ServeHTTP_releases_slot MD5.Sum TrimSpace_ascii SplitHostPort_plain
                lc3 heapBusy "/api" anyRequest (Relayed 200) heapBusy_int32
                ltac:(discriminate)) as Hx.
  destruct (ServeHTTP MD5.Sum TrimSpace_ascii SplitHostPort_plain
              (OfLeastConnections lc3) heapBusy "/api" anyRequest (Relayed 200))
    as [[status lb'] h'].
  destruct Hx as [Hlb Hq]. split; [exact Hlb|]. exact (proj1 (Hq 1%nat)).
Defined.

Lemma X14_ServeHTTP_unbuilt_request_keeps_slot_witness :
  let '(status, _, h') :=
    ServeHTTP MD5.Sum TrimSpace_ascii SplitHostPort_plain
      (OfLeastConnections lc3) heapBusy "/api" anyRequest ProxyRequestError in
  status = Ret 500 /\ Connections (heapBusy 1%nat) = 1 /\ Connections (h' 1%nat) = 2.
Proof.
  pose proof (X14_ServeHTTP_unbuilt_request_keeps_slot MD5.Sum TrimSpace_ascii
                SplitHostPort_plain lc3 heapBusy "/api" anyRequest 1%nat
                ltac:(discriminate) eq_refl) as Hx.
  destruct (ServeHTTP MD5.Sum TrimSpace_ascii SplitHostPort_plain
              (OfLeastConnections lc3) heapBusy "/api" anyRequest ProxyRequestError)
    as [[status lb'] h'].
  destruct Hx as (Hs & _ & Hc & _). split; [exact Hs|]. split; [reflexivity|exact Hc].
Defined.

Lemma X15_ServeHTTP_counts_witness :
  let '(status, _, h') :=
    ServeHTTP MD5.Sum TrimSpace_ascii SplitHostPort_plain
      (OfLeastConnections lc3) heapBusy "/api" anyRequest (Relayed 500) in
  status = Ret 500 /\ SuccessCount (h' 1%nat) = 5 /\ ErrorCount (h' 1%nat) = 1.
Proof.
  pose proof (X15_ServeHTTP_counts MD5.Sum TrimSpace_ascii SplitHostPort_plain
                (OfLeastConnections lc3) heapBusy "/api" anyRequest (Relayed 500) 1%nat
                ltac:(discriminate) eq_refl) as Hx.
  destruct (ServeHTTP MD5.Sum TrimSpace_ascii SplitHostPort_plain
              (OfLeastConnections lc3) heapBusy "/api" anyRequest (Relayed 500))
    as [[status lb'] h'].
  destruct (Hx ltac:(lia)) as (Hs & Hsucc & Herr).
  split; [exact Hs|]. split; [exact Hsucc|exact Herr].
Defined.

(** ** Flags and start-up *)

Lemma Split_nonempty s : Split s <> [].
Proof.
  destruct s as [|c rest]; simpl; [done|].
  case_bool_decide; [done|]. by destruct (Split rest).
Qed.

Lemma Split_length s : length (Split s) = S (commas s).
Proof.
  induction s as [|c rest IH]; simpl; [done|].
  case_bool_decide; simpl; [by rewrite IH|].
  pose proof (Split_nonempty rest). destruct (Split rest); [done|]. simpl in *. lia.
Qed.

(** Joining the pieces with commas gives the string back, and the first
    piece is what the IP-hash strategy takes from [X-Forwarded-For]. *)
Lemma Split_concat s : String.concat "," (Split s) = s.
Proof.
  induction s as [|c rest IH]; simpl; [done|].
  pose proof (Split_nonempty rest) as Hne.
  case_bool_decide as Hc.
  - subst c. simpl. destruct (Split rest) as [|x xs] eqn:Hs; [done|].
    simpl in *. by rewrite IH.
  - destruct (Split rest) as [|x xs] eqn:Hs; [done|].
    simpl in *. destruct xs; simpl in *; by rewrite <- IH.
Qed.

Lemma Split_head_first s : Split_head s = hd EmptyString (Split s).
Proof.
  induction s as [|c rest IH]; simpl; [done|].
  case_bool_decide; [done|]. rewrite IH. by destruct (Split rest).
Qed.

(** X16. The backend list [parseFlags] hands to [validateConfig] is empty
    exactly when the [-backends] flag is the empty string, and otherwise
    has one entry more than the flag has commas; so the check "at least
    one backend" rejects the empty flag only, and a flag such as [","]
    passes it with entries that may be empty. *)
Theorem X16_parseBackends_length strings_TrimSpace backends port algorithm interval timeout :
  let config :=
    mkConfig port (parseBackends strings_TrimSpace backends) algorithm interval timeout in
  length (Backends config) =
    (if decide (backends = EmptyString) then 0 else S (commas backends))%nat /\
  (validateConfig config = Some "at least one backend must be specified"%string <->
   backends = EmptyString).
Proof.
  simpl. unfold parseBackends.
  destruct (decide (backends = EmptyString)) as [->|Hne].
  - split; [done|]. by split.
  - rewrite bool_decide_eq_true_2 by done.
    assert (length (strings_TrimSpace <$> Split backends) = S (commas backends)) as Hlen.
    { by rewrite length_fmap, Split_length. }
    split; [done|]. split; [|done].
    unfold validateConfig. simpl. rewrite Hlen.
    destruct (decide (S (commas backends) = 0%nat)); [done|].
    intros Hv. exfalso.
    destruct (negb _); [|destruct (_ <=? 0); [|destruct (_ <=? 0)]]; discriminate.
Qed.

Example parseBackends_commas :
  parseBackends TrimSpace_ascii " http://localhost:3001 ,, " =
  ["http://localhost:3001"; ""; ""]%string.
Proof. reflexivity. Qed.

Lemma createLoadBalancer_valid algorithm :
  valid_algorithm_name algorithm ->
  exists lb, createLoadBalancer algorithm = inl lb /\
             strategy_name lb = algorithm /\ Balancer_GetBackends lb = [].
Proof. intros [-> | [-> | ->]]; eexists; repeat split. Qed.

Lemma validateConfig_algorithm config :
  validateConfig config = None -> valid_algorithm_name (Algorithm config).
Proof.
  unfold validateConfig. intros Hvalid.
  destruct (decide _); [done|].
  destruct (default false (validAlgorithms !! Algorithm config)) eqn:Halg; [|done].
  by apply validAlgorithms_lookup.
Qed.

(** X17. [createLoadBalancer] fails exactly for the names
    [validateConfig] rejects; for a configuration that passed validation
    it returns an empty balancer of the named strategy, so the error
    branch of [main] after validation is never taken. *)
Theorem X17_createLoadBalancer_after_validation :
  (forall algorithm,
     (exists err, createLoadBalancer algorithm = inr err) <->
     ~ valid_algorithm_name algorithm) /\
  (forall config, validateConfig config = None ->
     exists lb, createLoadBalancer (Algorithm config) = inl lb /\
                strategy_name lb = Algorithm config /\ Balancer_GetBackends lb = []).
Proof.
  pose proof createLoadBalancer_valid as Hok.
  split.
  - intros algorithm. split.
    + intros [err Herr] Hvalid. destruct (Hok _ Hvalid) as (lb & Hlb & _). congruence.
    + intros Hinvalid. unfold createLoadBalancer, valid_algorithm_name in *.
      repeat case_decide; try tauto. by eexists.
  - intros config Hvalid. by apply Hok, validateConfig_algorithm.
Qed.

Lemma Balancer_AddBackend_spec lb backend :
  Balancer_GetBackends (Balancer_AddBackend lb backend) = Balancer_GetBackends lb ++ [backend] /\
  strategy_name (Balancer_AddBackend lb backend) = strategy_name lb.
Proof. by destruct lb. Qed.

(** The registering loop allocates one backend per URL, in order, alive
    and with zero counters, and stops at the first URL that does not
    parse. *)
Lemma addBackends_spec url_Parse urls :
  forall lb h next,
    Forall (fun u => exists parsed, url_Parse u = inl parsed) urls ->
    exists lb' h',
      addBackends url_Parse lb h next urls = inr (lb', h', (next + length urls)%nat) /\
      strategy_name lb' = strategy_name lb /\
      Balancer_GetBackends lb' = Balancer_GetBackends lb ++ seq next (length urls) /\
      (forall i u, urls !! i = Some u ->
         exists parsed, url_Parse u = inl parsed /\
                        h' (next + i)%nat = mkBackend parsed true 0 0 0) /\
      (forall q, (q < next)%nat -> h' q = h q).
Proof.
  induction urls as [|u urls IH]; intros lb h next Hparse.
  { exists lb, h. simpl. rewrite Nat.add_0_r, app_nil_r. repeat split; try done. }
  apply Forall_cons in Hparse as [[parsed Hu] Hparse]. simpl. rewrite Hu.
  destruct (IH (Balancer_AddBackend lb next)
              (store h next (mkBackend parsed true 0 0 0)) (S next) Hparse)
    as (lb' & h' & -> & Hname & Hreg & Hnew & Hold).
  destruct (Balancer_AddBackend_spec lb next) as [Hadd Hsame].
  exists lb', h'. split; [do 2 f_equal; lia|].
  split; [by rewrite Hname|]. split; [by rewrite Hreg, Hadd, <- app_assoc|].
  split.
  - intros [|i] v Hv; simpl in Hv.
    + injection Hv as <-. exists parsed. split; [done|].
      rewrite Nat.add_0_r, Hold by lia. apply store_eq.
    + destruct (Hnew i v Hv) as (parsed' & Hv' & Hcell).
      exists parsed'. split; [done|]. by replace (next + S i)%nat with (S next + i)%nat by lia.
  - intros q Hq. rewrite Hold by lia. apply store_ne. lia.
Qed.

Lemma addBackends_fatal url_Parse urls :
  forall lb h next,
    Exists (fun u => exists err, url_Parse u = inr err) urls ->
    exists message, addBackends url_Parse lb h next urls = inl message.
Proof.
  induction urls as [|u urls IH]; intros lb h next Hbad.
  { by apply Exists_nil in Hbad. }
  simpl. destruct (url_Parse u) as [parsed|err] eqn:Hu; [|by eexists].
  apply Exists_cons in Hbad as [[err Herr]|Hbad]; [congruence|]. by apply IH.
Qed.

(** X18. Start-up. For a configuration that passes validation and whose
    backend URLs all parse, [main] reaches the serving state with a
    balancer of the configured strategy whose registry holds one freshly
    allocated backend per configured URL, in the order of the
    configuration, each with [Alive = true] and all counters zero; so
    every registered backend is selectable before the first health check
    has run. If a URL does not parse, or validation fails, [main] stops
    with a fatal message. *)
Theorem X18_main_start url_Parse config :
  (validateConfig config = None ->
   Forall (fun u => exists parsed, url_Parse u = inl parsed) (Backends config) ->
   exists lb h,
     main_start url_Parse config = Serving lb h /\
     strategy_name lb = Algorithm config /\
     Balancer_GetBackends lb = seq 0 (length (Backends config)) /\
     Balancer_GetBackends lb <> [] /\
     (forall i u, Backends config !! i = Some u ->
        exists parsed, url_Parse u = inl parsed /\ h i = mkBackend parsed true 0 0 0) /\
     aliveBackends h (Balancer_GetBackends lb) = Balancer_GetBackends lb) /\
  (validateConfig config <> None \/
   Exists (fun u => exists err, url_Parse u = inr err) (Backends config) ->
   exists message, main_start url_Parse config = StartFatal message).
Proof.
  split.
  - intros Hvalid Hparse. unfold main_start. rewrite Hvalid.
    destruct (createLoadBalancer_valid _ (validateConfig_algorithm config Hvalid))
      as (lb0 & -> & Hname0 & Hreg0).
    destruct (addBackends_spec url_Parse (Backends config) lb0
                (fun _ => mkBackend "" false 0 0 0) 0%nat Hparse)
      as (lb & h & -> & Hname & Hreg & Hnew & _).
    rewrite Hreg0 in Hreg. simpl in Hreg.
    exists lb, h. split; [done|]. split; [congruence|]. split; [done|].
    split.
    { rewrite Hreg. unfold validateConfig in Hvalid.
      destruct (decide (length (Backends config) = 0%nat)); [done|].
      destruct (length (Backends config)); done. }
    split; [exact Hnew|].
    rewrite Hreg. unfold aliveBackends.
    apply forallb_filter_id, forallb_forall. intros i Hi.
    apply in_seq in Hi. destruct (lookup_lt_is_Some_2 (Backends config) i) as [u Hu]; [lia|].
    destruct (Hnew i u Hu) as (parsed & _ & Hcell). simpl in Hcell. by rewrite Hcell.
  - intros [Hinvalid|Hbad]; unfold main_start.
    + destruct (validateConfig config); [by eexists|done].
    + destruct (validateConfig config); [by eexists|].
      destruct (createLoadBalancer (Algorithm config)) as [lb0|err]; [|by eexists].
      destruct (addBackends_fatal url_Parse (Backends config) lb0
                  (fun _ => mkBackend "" false 0 0 0) 0%nat Hbad) as [message ->].
      by eexists.
Qed.

Lemma X2_add_then_remove_witness :
  RemoveBackend (AddBackend rr3 3%nat) (heap3 (fun _ => true)) 3%nat = rr3.
Proof.
  apply (proj1 (X2_add_then_remove (heap3 (fun _ => true)) 3%nat) rr3).
  unfold no_URL. simpl.
  repeat (constructor; [vm_compute; discriminate|]). constructor.
Defined.

Lemma X18_main_start_witness :
  exists lb h,
    main_start inl (mkConfig "8080" ["http://localhost:3001"; "http://localhost:3002"]
                      "least-connections" 30000000000 5000000000) = Serving lb h /\
    Balancer_GetBackends lb = [0; 1]%nat /\
    aliveBackends h (Balancer_GetBackends lb) = [0; 1]%nat.
Proof.
  destruct (proj1 (X18_main_start inl
              (mkConfig "8080" ["http://localhost:3001"; "http://localhost:3002"]
                 "least-connections" 30000000000 5000000000)) eq_refl)
    as (lb & h & Hstart & _ & Hreg & _ & _ & Halive).
  { repeat (constructor; [by eexists|]). constructor. }
  exists lb, h. split; [exact Hstart|].
  rewrite Halive. split; exact Hreg.
Defined.

(** ** Health checker: start and stop *)

Lemma hc_step_consistent hc event hc' :
  hc_consistent hc -> hc_step hc event = Some hc' -> hc_consistent hc'.
Proof.
  unfold hc_consistent. intros Hc Hstep.
  destruct event; simpl in Hstep.
  - injection Hstep as <-. unfold StartHealthCheck.
    destruct Hc as [[Hr Hl]|[Hr Hl]]; rewrite Hr; simpl; [right|right]; by rewrite ?Hl.
  - injection Hstep as <-. unfold StopHealthCheck.
    destruct Hc as [[Hr Hl]|[Hr Hl]]; rewrite Hr; simpl; [by left|by right].
  - unfold loop_exit in Hstep.
    destruct (hc_cancelled hc && (0 <? hc_loops hc)%nat) eqn:Hen; [|done].
    injection Hstep as <-. simpl.
    destruct Hc as [[Hr Hl]|[Hr Hl]]; rewrite Hl in *; simpl.
    + by rewrite andb_false_r in Hen.
    + by left.
Qed.

Lemma hc_step_cancelled hc event hc' :
  hc_step hc event = Some hc' -> hc_cancelled hc = true -> hc_cancelled hc' = true.
Proof.
  intros Hstep Hc. destruct event; simpl in Hstep.
  - injection Hstep as <-. unfold StartHealthCheck. by destruct (hc_running hc =? 0).
  - injection Hstep as <-. unfold StopHealthCheck. by destruct (hc_running hc =? 0).
  - unfold loop_exit in Hstep. destruct (_ && _); [|done]. by injection Hstep as <-.
Qed.

(** X19. In every state the health checker reaches from
    [NewHealthChecker] through calls of [StartHealthCheck] and
    [StopHealthCheck] and exits of its loop, the [running] flag is 1
    exactly when a loop goroutine is alive, and at most one is. Starting a
    started checker and stopping a stopped one change nothing; stopping a
    checker that was never started does not cancel its context. *)
Theorem X19_health_checker_single_loop :
  (forall events hc, hc_run NewHealthChecker events = Some hc -> hc_consistent hc) /\
  (forall hc, StartHealthCheck (StartHealthCheck hc) = StartHealthCheck hc) /\
  (forall hc, StopHealthCheck (StopHealthCheck hc) = StopHealthCheck hc) /\
  StopHealthCheck NewHealthChecker = NewHealthChecker.
Proof.
  split; [|split; [|split]].
  - assert (forall events hc0 hc,
              hc_consistent hc0 -> hc_run hc0 events = Some hc -> hc_consistent hc) as Hrun.
    { induction events as [|event events IH]; intros hc0 hc Hc Hr; simpl in Hr.
      - by injection Hr as <-.
      - destruct (hc_step hc0 event) as [hc1|] eqn:Hstep; [|done].
        eapply IH; [|exact Hr]. by eapply hc_step_consistent. }
    intros events hc. apply Hrun. by left.
  - intros [r c l]. unfold StartHealthCheck. simpl.
    destruct (r =? 0) eqn:Hr; simpl; [done|by rewrite Hr].
  - intros [r c l]. unfold StopHealthCheck. simpl.
    destruct (r =? 0) eqn:Hr; simpl; by rewrite Hr.
  - reflexivity.
Qed.

(** X20. Stopping is final. Once [StopHealthCheck] has hit a running
    checker its context stays cancelled whatever is called afterwards;
    after the loop has exited, [StartHealthCheck] does start a new loop,
    but on that cancelled context, so the new loop can take the
    [ctx.Done()] case at once. *)
Theorem X20_health_checker_stop_is_final hc :
  hc_running hc = 1 -> hc_loops hc = 1%nat ->
  (forall events hc',
     hc_run (StopHealthCheck hc) events = Some hc' -> hc_cancelled hc' = true) /\
  exists stopped restarted,
    loop_exit (StopHealthCheck hc) = Some stopped /\
    hc_running stopped = 0 /\ hc_loops stopped = 0%nat /\
    StartHealthCheck stopped = restarted /\
    hc_running restarted = 1 /\ hc_loops restarted = 1%nat /\
    hc_cancelled restarted = true /\ loop_exit restarted <> None.
Proof.
  intros Hr Hl. split.
  - assert (forall events hc0 hc',
              hc_cancelled hc0 = true -> hc_run hc0 events = Some hc' ->
              hc_cancelled hc' = true) as Hrun.
    { induction events as [|event events IH]; intros hc0 hc' Hc Hrun; simpl in Hrun.
      - by injection Hrun as <-.
      - destruct (hc_step hc0 event) as [hc1|] eqn:Hstep; [|done].
        eapply IH; [|exact Hrun]. by eapply hc_step_cancelled. }
    intros events hc'. apply Hrun. unfold StopHealthCheck. by rewrite Hr.
  - destruct hc as [r c l]. simpl in *. subst r l.
    eexists _, _. unfold StopHealthCheck, loop_exit, StartHealthCheck. simpl.
    repeat split; done.
Qed.

Lemma X20_health_checker_stop_is_final_witness :
  hc_run (StopHealthCheck (StartHealthCheck NewHealthChecker)) [LoopExits; CallStart]
    = Some (mkHealthChecker 1 true 1) /\
  hc_cancelled (mkHealthChecker 1 true 1) = true.
Proof.
  split; [reflexivity|].
  exact (proj1 (X20_health_checker_stop_is_final (StartHealthCheck NewHealthChecker)
                  eq_refl eq_refl) [LoopExits; CallStart] _ eq_refl).
Defined.

(** ** IP-hash: what identifies a client *)

(** X21. IP-hash affinity follows the first source present, in this
    order: the part of [X-Forwarded-For] before its first comma (then
    [X-Real-IP], the peer address and any further forwarded entries are
    ignored), else [X-Real-IP] (then the peer address is ignored), else
    the host part of the peer address (then the source port is ignored).
    Two requests that agree on that source get the same answer in the
    same state. *)
Theorem X21_ip_hash_client_identity md5_Sum strings_TrimSpace net_SplitHostPort
    ihb h request1 request2 :
  (XForwardedFor request1 <> EmptyString /\ XForwardedFor request2 <> EmptyString /\
   Split_head (XForwardedFor request1) = Split_head (XForwardedFor request2)) \/
  (XForwardedFor request1 = EmptyString /\ XForwardedFor request2 = EmptyString /\
   XRealIP request1 <> EmptyString /\ XRealIP request1 = XRealIP request2) \/
  (XForwardedFor request1 = EmptyString /\ XForwardedFor request2 = EmptyString /\
   XRealIP request1 = EmptyString /\ XRealIP request2 = EmptyString /\
   exists host port1 port2,
     net_SplitHostPort (RemoteAddr request1) = Some (host, port1) /\
     net_SplitHostPort (RemoteAddr request2) = Some (host, port2)) ->
  IPHash_SelectBackend md5_Sum strings_TrimSpace net_SplitHostPort ihb h request1 =
  IPHash_SelectBackend md5_Sum strings_TrimSpace net_SplitHostPort ihb h request2.
Proof.
  intros Hsame.
  assert (getClientIP strings_TrimSpace net_SplitHostPort request1 =
          getClientIP strings_TrimSpace net_SplitHostPort request2) as Hip.
  { unfold getClientIP.
    destruct Hsame as [(H1 & H2 & Heq)|[(H1 & H2 & H3 & Heq)|(H1 & H2 & H3 & H4 & Hhost)]].
    - rewrite !bool_decide_eq_true_2 by done. by rewrite Heq.
    - rewrite H1, H2. rewrite (bool_decide_eq_false_2 (EmptyString <> EmptyString)) by auto.
      rewrite <- Heq. by rewrite bool_decide_eq_true_2.
    - rewrite H1, H2, H3, H4.
      rewrite (bool_decide_eq_false_2 (EmptyString <> EmptyString)) by auto.
      destruct Hhost as (host & port1 & port2 & -> & ->). done. }
  pose proof (IPHash_select_by_alive md5_Sum strings_TrimSpace net_SplitHostPort
                ihb h request1 ihb h request2 Hip eq_refl) as Hres.
  pose proof (IPHash_select_frame md5_Sum strings_TrimSpace net_SplitHostPort
                ihb h request1) as Hf1.
  pose proof (IPHash_select_frame md5_Sum strings_TrimSpace net_SplitHostPort
                ihb h request2) as Hf2.
  destruct (IPHash_SelectBackend md5_Sum strings_TrimSpace net_SplitHostPort ihb h request1)
    as [[r1 ihb1] h1].
  destruct (IPHash_SelectBackend md5_Sum strings_TrimSpace net_SplitHostPort ihb h request2)
    as [[r2 ihb2] h2].
  destruct Hf1 as [-> ->], Hf2 as [-> ->]. simpl in Hres. by subst.
Qed.

Lemma X21_ip_hash_client_identity_witness :
  IPHash_SelectBackend MD5.Sum TrimSpace_ascii SplitHostPort_plain ih3
    (heap3 (fun _ => true)) (mkRequest "" "" "10.0.0.7:51000") =
  IPHash_SelectBackend MD5.Sum TrimSpace_ascii SplitHostPort_plain ih3
    (heap3 (fun _ => true)) (mkRequest "" "" "10.0.0.7:40022").
Proof.
  pose proof (X21_ip_hash_client_identity MD5.Sum TrimSpace_ascii SplitHostPort_plain ih3
                (heap3 (fun _ => true)) (mkRequest "" "" "10.0.0.7:51000")
                (mkRequest "" "" "10.0.0.7:40022")) as Hx.
  apply Hx. clear Hx. right. right. repeat split.
  exists "10.0.0.7"%string, "51000"%string, "40022"%string.
  vm_compute. split; reflexivity.
Defined.

(** ** The dispatcher keeps connection counts non-negative *)

(** Whatever the strategy and the outcome, [ServeHTTP] leaves no
    connection count below zero when it found none there: with the counts
    zero at start-up, the least-connections scan never meets a negative
    count through the dispatcher. *)
Lemma ServeHTTP_keeps_connections_nonnegative md5_Sum strings_TrimSpace net_SplitHostPort
    lb h path request outcome :
  (forall p, 0 <= Connections (h p) < int32_max) ->
  forall q,
    0 <= Connections
           ((ServeHTTP md5_Sum strings_TrimSpace net_SplitHostPort
               lb h path request outcome).2 q).
Proof.
  intros Hcounts q. pose proof (Hcounts q) as Hq.
  assert (forall g p r, Connections (AddInt32_ErrorCount g p 1 r) = Connections (g r)) as Herr.
  { intros g p r. pose proof (AddInt32_ErrorCount_spec g p r). simpl in *. tauto. }
  assert (forall g p r, Connections (AddInt32_SuccessCount g p 1 r) = Connections (g r))
    as Hsucc.
  { intros g p r. pose proof (AddInt32_SuccessCount_spec g p r). simpl in *. tauto. }
  unfold ServeHTTP. destruct (decide (path = "/health"%string)); [simpl; lia|].
  destruct lb as [rb|lcb|ihb]; cbn.
  - pose proof (RoundRobin_select_frame rb h request) as Hf.
    destruct (RoundRobin_SelectBackend rb h request) as [[[[p|]|] rb'] h'];
      destruct Hf as [-> _]; simpl; try lia.
    destruct outcome as [| |code|code]; simpl; rewrite ?Herr; try lia;
      destruct ((code <? 100) || (999 <? code)); simpl; rewrite ?Herr, ?Hsucc; lia.
  - destruct (decide (length (aliveBackends h (lc_backends lcb)) = 0%nat)) as [Hk|Hk].
    { rewrite LeastConnections_select_none by done. simpl. lia. }
    destruct (LeastConnections_select_some lcb h request Hk) as (p & _ & _ & _ & ->).
    assert (int32_range (Connections (h p))) as Hrange.
    { pose proof (Hcounts p). unfold int32_range, int32_min, int32_max in *. lia. }
    destruct outcome as [| |code|code].
    + simpl. destruct (decide (q = p)) as [->|Hne].
      * rewrite AddInt32_Connections_eq, wrap_int32_id; [lia|].
        unfold int32_range, int32_min, int32_max in *. lia.
      * rewrite AddInt32_Connections_ne by done. lia.
    + cbn [snd].
      rewrite (release_LeastConnections_restores lcb h p q
                 (fun g => AddInt32_ErrorCount g p 1)); [lia|done|]. intros g r. apply Herr.
    + destruct ((code <? 100) || (999 <? code)); cbn [snd].
      * rewrite (release_LeastConnections_restores lcb h p q (fun g => g)); [lia|done|done].
      * rewrite (release_LeastConnections_restores lcb h p q
                   (fun g => AddInt32_ErrorCount g p 1)); [lia|done|].
        intros g r. apply Herr.
    + destruct ((code <? 100) || (999 <? code)); cbn [snd].
      * rewrite (release_LeastConnections_restores lcb h p q (fun g => g)); [lia|done|done].
      * rewrite (release_LeastConnections_restores lcb h p q
                   (fun g => AddInt32_SuccessCount g p 1)); [lia|done|].
        intros g r. apply Hsucc.
  - pose proof (IPHash_select_frame md5_Sum strings_TrimSpace net_SplitHostPort
                  ihb h request) as Hf.
    destruct (IPHash_SelectBackend md5_Sum strings_TrimSpace net_SplitHostPort ihb h request)
      as [[[[p|]|] ihb'] h'];
      destruct Hf as [-> _]; simpl; try lia.
    destruct outcome as [| |code|code]; simpl; rewrite ?Herr; try lia;
      destruct ((code <? 100) || (999 <? code)); simpl; rewrite ?Herr, ?Hsucc; lia.
Qed.
